(** * A ClickUp ingestion and query bridge (app/main.py), embedded in Rocq

    The program pulls the space / folder / list / task hierarchy of one
    workspace from a remote API, flattens every task into a record,
    stores the records in one JSON document and answers free-text
    queries by substring matching over the stored records.

    The embedding follows the Python source function by function.
    Python values that come out of a JSON body are values of [json];
    an exception is a value of [exn]; an expression that may raise is a
    [result]; a function with effects (remote calls, the log, the
    document on disk, the language model) is a state-and-exception
    computation [M].

    What lies outside the program is a parameter of the development:
    the remote API, the language model, the operating system, the JSON
    library and Python's [repr].  Text is ASCII. *)

From Stdlib Require Import ZArith String Ascii Floats.SpecFloat.
From stdpp Require Import gmap strings list fin_maps pretty.

Set Warnings "-register-all".
Local Open Scope string_scope.

(** ** Values *)

(** What [json.load] and [response.json()] can return: [None], [bool],
    [int], [float], [str], [list] and [dict] with [str] keys.  A [dict]
    is a finite map: one value per key, and two dicts are equal when
    they agree on every key. *)
Inductive json : Type :=
  | JNull
  | JBool (b : bool)
  | JInt (n : Z)
  | JFloat (f : spec_float)
  | JStr (s : string)
  | JArr (l : list json)
  | JObj (m : gmap string json).

(** The exceptions the program can meet.  [HTTPException] is FastAPI's;
    [RequestException] never escapes [_make_request]. *)
Inductive exn : Type :=
  | HTTPException (status_code : Z) (detail : string)
  | KeyError (key : string)
  | AttributeError (type_name attr : string)
  | TypeError (type_name : string)
  | JSONDecodeError
  | OSError (msg : string)
  | ResponseError (msg : string).

Inductive result (A : Type) : Type :=
  | Ok (a : A)
  | Raise (e : exn).
Arguments Ok {A} a.
Arguments Raise {A} e.

#[global] Instance result_ret : MRet result := fun A a => Ok a.
#[global] Instance result_bind : MBind result := fun A B f r =>
  match r with
  | Ok a => f a
  | Raise e => Raise e
  end.

Definition is_raise {A} (r : result A) : bool :=
  match r with Ok _ => false | Raise _ => true end.

(** ** Python primitives on JSON values *)

Definition type_name (v : json) : string :=
  match v with
  | JNull => "NoneType"
  | JBool _ => "bool"
  | JInt _ => "int"
  | JFloat _ => "float"
  | JStr _ => "str"
  | JArr _ => "list"
  | JObj _ => "dict"
  end.

(** [isinstance(v, dict)] *)
Definition is_dict (v : json) : bool :=
  match v with JObj _ => true | _ => false end.

(** [v.get(key, dflt)]: only a dict has [get]. *)
Definition py_get (v : json) (key : string) (dflt : json) : result json :=
  match v with
  | JObj m => Ok (default dflt (m !! key))
  | _ => Raise (AttributeError (type_name v) "get")
  end.

(** [v[key]] with a [str] key. *)
Definition py_getitem (v : json) (key : string) : result json :=
  match v with
  | JObj m =>
      match m !! key with
      | Some x => Ok x
      | None => Raise (KeyError key)
      end
  | _ => Raise (TypeError (type_name v))
  end.

(** Truth value of a JSON value, as [bool(v)] computes it. *)
Definition truthy (v : json) : bool :=
  match v with
  | JNull => false
  | JBool b => b
  | JInt n => negb (n =? 0)%Z
  | JFloat (S754_zero _) => false
  | JFloat _ => true
  | JStr s => negb (String.eqb s "")
  | JArr l => match l with [] => false | _ => true end
  | JObj m => negb (bool_decide (m = ∅))
  end.

(** [a or b] *)
Definition py_or (a b : json) : json := if truthy a then a else b.

(** The characters of a string, each as a string of length one. *)
Fixpoint chars (s : string) : list string :=
  match s with
  | EmptyString => []
  | String c s' => String c EmptyString :: chars s'
  end.

(** [for x in v]: the sequence a [for] loop walks.  A list gives its
    elements, a dict its keys, a string its characters; nothing else is
    iterable.  The keys of a dict come in the order of the map, not in
    Python's insertion order; the program does the same with every key
    it meets, whatever the order. *)
Definition py_iter (v : json) : result (list json) :=
  match v with
  | JArr l => Ok l
  | JObj m => Ok (JStr <$> (map_to_list m).*1)
  | JStr s => Ok (JStr <$> chars s)
  | _ => Raise (TypeError (type_name v))
  end.

(** ** Normalising one task (lines 87-100 of app/main.py) *)

(** [task.get('status', {}).get('status', 'Unknown')] *)
Definition norm_status (task : json) : result json :=
  st ← py_get task "status" (JObj ∅);
  py_get st "status" (JStr "Unknown").

(** [task.get('priority', {}).get('priority', 'Not set')
      if isinstance(task.get('priority', {}), dict) else 'Not set']:
    the test is evaluated first. *)
Definition norm_priority (task : json) : result json :=
  c ← py_get task "priority" (JObj ∅);
  if is_dict c then
    p ← py_get task "priority" (JObj ∅);
    py_get p "priority" (JStr "Not set")
  else Ok (JStr "Not set").

(** The dict display [task_data = {...}]: the twelve values are
    evaluated in the order they are written. *)
Definition normalize_task (task list_name folder_name space_name : json)
  : result json :=
  title ← py_get task "name" (JStr "");
  description ← py_get task "description" (JStr "");
  status ← norm_status task;
  priority ← norm_priority task;
  due_date ← py_get task "due_date" (JStr "None");
  created_date ← py_get task "date_created" (JStr "None");
  assigned_to ← py_get task "assignees" (JArr []);
  task_id ← py_getitem task "id";
  url ← py_get task "url" (JStr "");
  Ok (JObj (list_to_map
    [ ("title", title);
      ("description", description);
      ("status", status);
      ("priority", priority);
      ("due_date", due_date);
      ("created_date", created_date);
      ("assigned_to", assigned_to);
      ("task_id", task_id);
      ("list_name", list_name);
      ("folder_name", folder_name);
      ("space_name", space_name);
      ("url", url) ])).

(** The field of a record, when the record is a dict that has it. *)
Definition field (key : string) (rec : json) : option json :=
  match rec with JObj m => m !! key | _ => None end.

(** ** Text *)

(** Python strings are modelled as ASCII text.  [lower] is [str.lower]
    on such text: it maps the letters A-Z to a-z and leaves every other
    character as it is.  Outside ASCII [str.lower] is Unicode lowering,
    which is not a map on single characters (a capital sigma lowers to
    one of two letters, depending on what follows it); the statements
    about letter case therefore take [str.lower] as a parameter
    [str_lower] that agrees with [lower] on ASCII text. *)
Definition is_upper (c : ascii) : bool :=
  Nat.leb 65 (nat_of_ascii c) && Nat.leb (nat_of_ascii c) 90.

Definition lower_ascii (c : ascii) : ascii :=
  if is_upper c then ascii_of_nat (nat_of_ascii c + 32) else c.

Fixpoint lower (s : string) : string :=
  match s with
  | EmptyString => EmptyString
  | String c s' => String (lower_ascii c) (lower s')
  end.

(** [needle in hay] on two strings: [needle] starts at some position of
    [hay]. *)
Fixpoint contains (needle hay : string) : bool :=
  String.prefix needle hay ||
  match hay with
  | EmptyString => false
  | String _ hay' => contains needle hay'
  end.

(** [v.lower()]: only a string has [lower]. *)
Definition py_lower (v : json) : result string :=
  match v with
  | JStr s => Ok (lower s)
  | _ => Raise (AttributeError (type_name v) "lower")
  end.

Definition nl : string := String (ascii_of_nat 10) EmptyString.

(** ** Matching one stored record (lines 125-129)

    [query] is the query text already lowered.  [or] evaluates its
    right operand only when the left one is false. *)
Definition record_matches (query : string) (task : json) : result bool :=
  t ← py_get task "title" (JStr "");
  let title := py_or t (JStr "") in
  d ← py_get task "description" (JStr "");
  let description := py_or d (JStr "") in
  tl ← py_lower title;
  if contains query tl then Ok true
  else
    dl ← py_lower description;
    Ok (contains query dl).

(** The same lines with [str.lower] as a parameter: [record_matches]
    is [record_matches_with lower]. *)
Definition py_lower_with (str_lower : string → string) (v : json)
  : result string :=
  match v with
  | JStr s => Ok (str_lower s)
  | _ => Raise (AttributeError (type_name v) "lower")
  end.

Definition record_matches_with (str_lower : string → string)
    (query : string) (task : json) : result bool :=
  t ← py_get task "title" (JStr "");
  let title := py_or t (JStr "") in
  d ← py_get task "description" (JStr "");
  let description := py_or d (JStr "") in
  tl ← py_lower_with str_lower title;
  if contains query tl then Ok true
  else
    dl ← py_lower_with str_lower description;
    Ok (contains query dl).

(** Two characters that [lower_ascii] sends to the same character, and
    a text that has a slice agreeing with [q] in that sense. *)
Definition same_letter (a b : ascii) : Prop :=
  lower_ascii a = lower_ascii b.

Definition occurs_ignoring_case (q text : string) : Prop :=
  ∃ before mid after : string,
    text = before +:+ mid +:+ after ∧
    Forall2 same_letter (list_ascii_of_string mid) (list_ascii_of_string q).

(** ASCII text: every character is below 128. *)
Fixpoint is_ascii (s : string) : bool :=
  match s with
  | EmptyString => true
  | String c s' => Nat.ltb (nat_of_ascii c) 128 && is_ascii s'
  end.

(** "Appears case-insensitively as a substring", said without any
    lowering.  [a] is a capital letter A-Z and [b] its small letter;
    two characters are equal up to case when they are equal or one is
    the capital of the other; [q] occurs in [text] up to case when some
    slice of [text] agrees with [q] character by character up to
    case. *)
Definition case_pair (a b : ascii) : Prop :=
  (65 <= nat_of_ascii a)%nat ∧ (nat_of_ascii a <= 90)%nat ∧
  nat_of_ascii b = (nat_of_ascii a + 32)%nat.

Definition equal_up_to_case (a b : ascii) : Prop :=
  a = b ∨ case_pair a b ∨ case_pair b a.

Definition occurs_up_to_case (q text : string) : Prop :=
  ∃ before mid after : string,
    text = before +:+ mid +:+ after ∧
    Forall2 equal_up_to_case (list_ascii_of_string mid)
            (list_ascii_of_string q).

(** A title or description as matching sees it: a missing or null field
    counts as the empty text. *)
Definition text_of (o : option json) : string :=
  match o with
  | Some (JStr s) => s
  | _ => ""
  end.

(** A text field of the data model: absent, null or a string. *)
Definition text_field (o : option json) : bool :=
  match o with
  | None | Some JNull | Some (JStr _) => true
  | Some _ => false
  end.

(** ** Shape of a task record *)

Definition record_keys : list string :=
  [ "title"; "description"; "status"; "priority"; "due_date";
    "created_date"; "assigned_to"; "task_id"; "list_name";
    "folder_name"; "space_name"; "url" ].

(** The keys the query renderer reads with [task[...]]. *)
Definition rendered_keys : list string :=
  [ "title"; "description"; "status"; "priority"; "due_date";
    "created_date"; "assigned_to" ].

Definition has_keys (keys : list string) (rec : json) : bool :=
  forallb (λ k, bool_decide (is_Some (field k rec))) keys.

(** A record with exactly the twelve fields. *)
Definition complete_record (rec : json) : Prop :=
  ∃ m : gmap string json, rec = JObj m ∧ dom m = list_to_set record_keys.

(** A stored record as the data model describes it: a dict that has
    every rendered field, whose title and description are strings or
    null. *)
Definition task_record (rec : json) : bool :=
  is_dict rec && has_keys rendered_keys rec &&
  text_field (field "title" rec) && text_field (field "description" rec).

(** ** JSON-representable values

    [NaN] and the infinities are Python floats but not JSON numbers. *)
Definition finite_float (f : spec_float) : bool :=
  match f with
  | S754_zero _ | S754_finite _ _ _ => true
  | S754_infinity _ | S754_nan => false
  end.

Fixpoint json_representable (v : json) : bool :=
  match v with
  | JFloat f => finite_float f
  | JArr l => forallb json_representable l
  | JObj m => map_fold (λ _ x acc, json_representable x && acc) true m
  | _ => true
  end.

(** ** When a task has no status, and when it has no usable priority *)

(** The [status] key is absent or holds an object. *)
Definition status_well_shaped (task : gmap string json) : bool :=
  match task !! "status" with
  | None | Some (JObj _) => true
  | Some _ => false
  end.

(** The [status] key is absent, or it holds an object without an inner
    [status] key. *)
Definition status_missing (task : gmap string json) : bool :=
  match task !! "status" with
  | None => true
  | Some (JObj st) => bool_decide (st !! "status" = None)
  | Some _ => false
  end.

(** The [priority] key is absent, or holds something that is not an
    object, or holds an object without an inner [priority] key. *)
Definition priority_unusable (task : gmap string json) : bool :=
  match task !! "priority" with
  | None => true
  | Some (JObj p) => bool_decide (p !! "priority" = None)
  | Some _ => true
  end.

(** ** The file system

    What can happen when the program opens the document for writing
    and writes a text: the text is written; the file cannot be opened
    and stays as it was; or the write breaks off and leaves a part of
    the text behind. *)
Inductive write_outcome : Type :=
  | Written
  | Refused (msg : string)
  | Torn (msg : string) (partial : string).

(** ** A small JSON writer and reader

    [json.dumps(., indent=2)] and [json.loads] belong to Python's
    library.  The examples run the store on this writer and reader,
    which cover the documents they use: no floats, and only the
    escapes for the quote, the backslash and the newline. *)

Definition quote : ascii := ascii_of_nat 34.
Definition backslash : ascii := ascii_of_nat 92.
Definition newline : ascii := ascii_of_nat 10.

Fixpoint write_chars (s : string) : string :=
  match s with
  | EmptyString => EmptyString
  | String c s' =>
      if Ascii.eqb c quote then String backslash (String quote (write_chars s'))
      else if Ascii.eqb c backslash
           then String backslash (String backslash (write_chars s'))
      else if Ascii.eqb c newline then String backslash (String "n" (write_chars s'))
      else String c (write_chars s')
  end.

Definition write_string (s : string) : string :=
  String quote (write_chars s +:+ String quote EmptyString).

Fixpoint spaces (n : nat) : string :=
  match n with O => EmptyString | S n' => String " " (spaces n') end.

(** A line break followed by the indentation of nesting depth [depth]. *)
Definition break (depth : nat) : string := String newline (spaces (2 * depth)).

Definition write_block (opening closing : string) (depth : nat)
    (items : list string) : string :=
  match items with
  | [] => opening +:+ closing
  | _ => opening +:+ break (S depth) +:+
         String.concat ("," +:+ break (S depth)) items +:+
         break depth +:+ closing
  end.

Fixpoint write_json (depth : nat) (v : json) : string :=
  match v with
  | JNull => "null"
  | JBool true => "true"
  | JBool false => "false"
  | JInt n => pretty n
  | JFloat _ => "NaN"
  | JStr s => write_string s
  | JArr l => write_block "[" "]" depth (map (write_json (S depth)) l)
  | JObj m =>
      write_block "{" "}" depth
        (map_fold (λ k x items,
                     (write_string k +:+ ": " +:+ write_json (S depth) x) :: items)
                  [] m)
  end.

Definition demo_dumps (v : json) : string := write_json 0 v.

Definition is_space (c : ascii) : bool :=
  Ascii.eqb c " " || Ascii.eqb c newline.

Fixpoint skip_space (s : string) : string :=
  match s with
  | String c s' => if is_space c then skip_space s' else s
  | EmptyString => EmptyString
  end.

(** The characters of a string literal up to its closing quote. *)
Fixpoint read_chars (s : string) : option (string * string) :=
  match s with
  | EmptyString => None
  | String c s' =>
      if Ascii.eqb c quote then Some (EmptyString, s')
      else if Ascii.eqb c backslash then
        match s' with
        | String e s'' =>
            let c' := if Ascii.eqb e "n" then newline else e in
            '(t, rest) ← read_chars s''; Some (String c' t, rest)
        | EmptyString => None
        end
      else '(t, rest) ← read_chars s'; Some (String c t, rest)
  end.

Definition digit (c : ascii) : option Z :=
  let n := nat_of_ascii c in
  if Nat.leb 48 n && Nat.leb n 57 then Some (Z.of_nat (n - 48)) else None.

Fixpoint read_digits (acc : Z) (s : string) : Z * string :=
  match s with
  | String c s' =>
      match digit c with
      | Some d => read_digits (10 * acc + d) s'
      | None => (acc, s)
      end
  | EmptyString => (acc, s)
  end.

Section Reader.
Variable read_value : string → option (json * string).

(** The items of an array after its opening bracket, when it is not
    empty. *)
Fixpoint read_items (fuel : nat) (s : string) : option (list json * string) :=
  match fuel with
  | O => None
  | S fuel' =>
      '(v, s1) ← read_value s;
      match skip_space s1 with
      | String "," s2 => '(vs, s3) ← read_items fuel' s2; Some (v :: vs, s3)
      | String "]" s2 => Some ([v], s2)
      | _ => None
      end
  end.

(** The members of an object after its opening brace, when it is not
    empty.  A key that comes twice keeps its last value. *)
Fixpoint read_members (fuel : nat) (s : string)
  : option (gmap string json * string) :=
  match fuel with
  | O => None
  | S fuel' =>
      match skip_space s with
      | String c s0 =>
          if Ascii.eqb c quote then
            '(k, s1) ← read_chars s0;
            match skip_space s1 with
            | String ":" s2 =>
                '(v, s3) ← read_value s2;
                match skip_space s3 with
                | String "," s4 =>
                    '(m, s5) ← read_members fuel' s4;
                    Some (match m !! k with Some _ => m | None => <[k:=v]> m end, s5)
                | String "}" s4 => Some ({[ k := v ]}, s4)
                | _ => None
                end
            | _ => None
            end
          else None
      | EmptyString => None
      end
  end.
End Reader.

Fixpoint read_json (fuel : nat) (s : string) : option (json * string) :=
  match fuel with
  | O => None
  | S fuel' =>
      match skip_space s with
      | String "n" (String "u" (String "l" (String "l" rest))) => Some (JNull, rest)
      | String "t" (String "r" (String "u" (String "e" rest))) =>
          Some (JBool true, rest)
      | String "f" (String "a" (String "l" (String "s" (String "e" rest)))) =>
          Some (JBool false, rest)
      | String "[" rest =>
          match skip_space rest with
          | String "]" rest' => Some (JArr [], rest')
          | _ => '(vs, rest') ← read_items (read_json fuel') (String.length rest) rest;
                 Some (JArr vs, rest')
          end
      | String "{" rest =>
          match skip_space rest with
          | String "}" rest' => Some (JObj ∅, rest')
          | _ => '(m, rest') ← read_members (read_json fuel') (String.length rest) rest;
                 Some (JObj m, rest')
          end
      | String "-" rest =>
          match rest with
          | String c _ =>
              match digit c with
              | Some _ => let '(n, rest') := read_digits 0 rest in
                          Some (JInt (- n), rest')
              | None => None
              end
          | EmptyString => None
          end
      | String c rest =>
          if Ascii.eqb c quote then
            '(t, rest') ← read_chars rest; Some (JStr t, rest')
          else
            match digit c with
            | Some _ => let '(n, rest') := read_digits 0 (String c rest) in
                        Some (JInt n, rest')
            | None => None
            end
      | EmptyString => None
      end
  end.

(** The whole text must be one value. *)
Definition demo_loads (text : string) : option json :=
  '(v, rest) ← read_json (String.length text) text;
  match skip_space rest with
  | EmptyString => Some v
  | _ => None
  end.

(** ** The workspace of the end-to-end scenario

    One space "Eng", one folder "Backend", one list "Sprint 1" and two
    tasks: task A has a name only, task B has a status object and a
    priority given as a plain string. *)

Definition task_a : gmap string json :=
  list_to_map [ ("id", JStr "a"); ("name", JStr "Fix login") ].

Definition task_b : gmap string json :=
  list_to_map [ ("id", JStr "b"); ("name", JStr "Add logging");
                ("status", JObj {[ "status" := JStr "In Progress" ]});
                ("priority", JStr "high") ].

Definition named (id name : string) : json :=
  JObj (list_to_map [ ("id", JStr id); ("name", JStr name) ]).

Definition api : string := "https://api.clickup.com/api/v2/".

Definition demo_pages : gmap string json :=
  list_to_map
    [ (api +:+ "team/3342101/space",
       JObj {[ "spaces" := JArr [ named "s1" "Eng" ] ]});
      (api +:+ "space/s1/folder",
       JObj {[ "folders" := JArr [ named "f1" "Backend" ] ]});
      (api +:+ "folder/f1/list",
       JObj {[ "lists" := JArr [ named "l1" "Sprint 1" ] ]});
      (api +:+ "list/l1/task",
       JObj {[ "tasks" := JArr [ JObj task_a; JObj task_b ] ]}) ].

(** A remote API that serves the given pages and answers 404 for any
    other address. *)
Definition serve (pages : gmap string json) (url : string) (w : unit)
  : (string + json) * unit :=
  match pages !! url with
  | Some body => (inr body, w)
  | None => (inl "404 Client Error: Not Found", w)
  end.

(** The same workspace with the task page of the list gone: the
    request at the fourth level fails. *)
Definition broken_pages : gmap string json :=
  delete (api +:+ "list/l1/task") demo_pages.

(** The same workspace where the list holds one task whose status is a
    plain string. *)
Definition odd_pages : gmap string json :=
  <[ api +:+ "list/l1/task" :=
       JObj {[ "tasks" :=
                 JArr [ JObj (list_to_map [ ("id", JStr "1");
                                            ("status", JStr "open") ]) ] ]} ]>
    demo_pages.

(** [str.lower] beyond ASCII, on the two Greek words used below, held
    as their UTF-8 bytes.  Python lowers a capital sigma to the final
    form when it ends a word and to the medial form otherwise:
    ['ΟΣ'.lower()] is ['ος'] and ['ΟΣΑ'.lower()] is ['οσα'].  On every
    other text [lower_sample] is the ASCII map. *)
Definition lower_sample (s : string) : string :=
  if String.eqb s "ΟΣ" then "ος"
  else if String.eqb s "ΟΣΑ" then "οσα"
  else lower s.

(** A workspace whose first answer has no [spaces] key. *)
Definition empty_pages : gmap string json :=
  {[ api +:+ "team/3342101/space" := JObj ∅ ]}.

(** Two records with the rendered fields, all null in the one and all
    empty strings in the other. *)
Definition null_record : gmap string json :=
  list_to_map (map (λ k, (k, JNull)) rendered_keys).

Definition blank_record : gmap string json :=
  list_to_map (map (λ k, (k, JStr "")) rendered_keys).

(** An operating system that carries out every write and every read. *)
Definition sound_write (w : unit) (text : string) : write_outcome := Written.
Definition sound_read (w : unit) : option string := None.

(** An operating system that refuses every write, and one that breaks
    every write off after the first character. *)
Definition refusing_write (w : unit) (text : string) : write_outcome :=
  Refused "Permission denied".
Definition tearing_write (w : unit) (text : string) : write_outcome :=
  Torn "No space left on device" (String.substring 0 1 text).

(** A language model that answers every conversation with one text. *)
Definition demo_chat (model : string) (messages : json) (w : unit)
  : result string * unit :=
  (Ok "Two tasks are open.", w).

Definition demo_repr (v : json) : string := "...".

Definition demo_str_exn (e : exn) : string :=
  match e with
  | HTTPException status_code detail => pretty status_code +:+ ": " +:+ detail
  | KeyError key => "'" +:+ key +:+ "'"
  | AttributeError ty attr =>
      "'" +:+ ty +:+ "' object has no attribute '" +:+ attr +:+ "'"
  | TypeError ty => "'" +:+ ty +:+ "' object does not support this operation"
  | JSONDecodeError => "Expecting value"
  | OSError msg => msg
  | ResponseError msg => msg
  end.

(** The two records the scenario expects, and the document holding
    them. *)
Definition demo_record (title status task_id : string) : json :=
  JObj (list_to_map
    [ ("title", JStr title);
      ("description", JStr "");
      ("status", JStr status);
      ("priority", JStr "Not set");
      ("due_date", JStr "None");
      ("created_date", JStr "None");
      ("assigned_to", JArr []);
      ("task_id", JStr task_id);
      ("list_name", JStr "Sprint 1");
      ("folder_name", JStr "Backend");
      ("space_name", JStr "Eng");
      ("url", JStr "") ]).

Definition demo_records : list json :=
  [ demo_record "Fix login" "Unknown" "a";
    demo_record "Add logging" "In Progress" "b" ].

Definition demo_document : string :=
  demo_dumps (JObj {[ "tasks" := JArr demo_records ]}).

(** A document whose [tasks] key holds null. *)
Definition null_tasks_document : string :=
  demo_dumps (JObj {[ "tasks" := JNull ]}).


(** ** The environment and the effects *)

Inductive level : Type := INFO | ERROR.

(** One line of the log: the level and the message. *)
Definition log_line : Type := level * string.

(** The line [_make_request] logs when a request fails. *)
Definition fetch_failure (line : log_line) : Prop :=
  ∃ url msg : string, line = (ERROR, "Error calling " +:+ url +:+ ": " +:+ msg).

Section Bridge.

(** The outside world: the remote API and the language model.
    [http_get url w] is [requests.get] followed by [raise_for_status]
    and [response.json()]: [inr body] is the parsed body, [inl msg] a
    [RequestException] (no connection, an error status, a body that is
    not JSON) whose text is [msg].  [ollama_chat model messages w] is
    [ollama.chat], which returns a [ChatResponse] object or raises.
    Both may change the world. *)
Context {World ChatResponse : Type}.
Variable http_get : string → World → (string + json) * World.
Variable ollama_chat : string → json → World → result ChatResponse * World.

(** The operating system: the outcome of writing a text to the
    document, and the error, if any, of opening the document for
    reading. *)
Variable os_write : World → string → write_outcome.
Variable os_read : World → option string.

(** [json.dumps(., indent=2)] and [json.loads]; [None] stands for the
    decoder's exception. *)
Variable json_dumps : json → string.
Variable json_loads : string → option json.

(** [repr] of a float, a list or a dict, and [str] of an exception. *)
Variable py_repr : json → string.
Variable str_exn : exn → string.

(** The state the program runs in.  [st_disk] is the content of
    clickup_data.json, [None] when the file does not exist; [st_log] is
    what the logger has written; [st_chats] records each call made to
    the language model. *)
Record State : Type := mkState {
  st_world : World;
  st_disk : option string;
  st_log : list log_line;
  st_chats : list (string * json)
}.

Definition M (A : Type) : Type := State → result A * State.

#[global] Instance M_ret : MRet M := λ A a s, (Ok a, s).
#[global] Instance M_bind : MBind M := λ A B f m s,
  match m s with
  | (Ok a, s') => f a s'
  | (Raise e, s') => (Raise e, s')
  end.

Definition lift {A} (r : result A) : M A := λ s, (r, s).

Definition raise {A} (e : exn) : M A := λ s, (Raise e, s).

(** [try: body  except Exception as e: handler e] *)
Definition try_except {A} (body : M A) (handler : exn → M A) : M A := λ s,
  match body s with
  | (Ok a, s') => (Ok a, s')
  | (Raise e, s') => handler e s'
  end.

(** [for x in xs: acc = body x acc] *)
Fixpoint for_each {A B} (xs : list A) (acc : B) (body : A → B → M B) : M B :=
  match xs with
  | [] => mret acc
  | x :: xs' => acc' ← body x acc; for_each xs' acc' body
  end.

Definition logger (lv : level) (msg : string) : M unit := λ s,
  (Ok (), mkState (st_world s) (st_disk s) (st_log s ++ [(lv, msg)])%list (st_chats s)).

Definition requests_get (url : string) : M (string + json) := λ s,
  let '(r, w) := http_get url (st_world s) in
  (Ok r, mkState w (st_disk s) (st_log s) (st_chats s)).

Definition chat (model : string) (messages : json) : M ChatResponse := λ s,
  let '(r, w) := ollama_chat model messages (st_world s) in
  (r, mkState w (st_disk s) (st_log s) (st_chats s ++ [(model, messages)])%list).

(** [os.path.exists(JSON_FILE_PATH)] *)
Definition path_exists : M bool := λ s,
  (Ok (bool_decide (is_Some (st_disk s))), s).

(** [open(JSON_FILE_PATH, 'r')] and reading the whole text. *)
Definition read_file : M string := λ s,
  match st_disk s, os_read (st_world s) with
  | Some text, None => (Ok text, s)
  | Some _, Some msg => (Raise (OSError msg), s)
  | None, _ => (Raise (OSError "No such file or directory"), s)
  end.

(** [open(JSON_FILE_PATH, 'w')] and writing the whole text. *)
Definition write_file (text : string) : M unit := λ s,
  match os_write (st_world s) text with
  | Written =>
      (Ok (), mkState (st_world s) (Some text) (st_log s) (st_chats s))
  | Refused msg => (Raise (OSError msg), s)
  | Torn msg partial =>
      (Raise (OSError msg),
       mkState (st_world s) (Some partial) (st_log s) (st_chats s))
  end.

(** The JSON library represents [v]: it decodes the text it writes for
    [v] back to [v]. *)
Definition reads_back (v : json) : Prop :=
  json_loads (json_dumps v) = Some v.

(** [str(v)], used by the f-strings. *)
Definition py_str (v : json) : string :=
  match v with
  | JNull => "None"
  | JBool true => "True"
  | JBool false => "False"
  | JInt n => pretty n
  | JStr s => s
  | _ => py_repr v
  end.

(** ** Remote Resource Client (lines 27-40) *)

Definition _make_request (endpoint : string) : M json :=
  let url := "https://api.clickup.com/api/v2/" +:+ endpoint in
  logger INFO ("Requesting: " +:+ url);;
  r ← requests_get url;
  match r with
  | inr body => mret body
  | inl msg =>
      logger ERROR ("Error calling " +:+ url +:+ ": " +:+ msg);;
      raise (HTTPException 500 ("ClickUp API error: " +:+ msg))
  end.

(** ** Record Store (lines 42-61) *)

Definition save_to_json (documents : list json) : M unit :=
  try_except
    (write_file (json_dumps (JObj {[ "tasks" := JArr documents ]})))
    (λ e, logger ERROR ("Error saving to JSON: " +:+ str_exn e);; raise e).

Definition load_from_json : M json :=
  try_except
    (found ← path_exists;
     if negb found then mret (JArr [])
     else
       text ← read_file;
       match json_loads text with
       | None => raise JSONDecodeError
       | Some data => lift (py_get data "tasks" (JArr []))
       end)
    (λ e, logger ERROR ("Error loading from JSON: " +:+ str_exn e);;
          mret (JArr [])).

(** ** Hierarchy Walker (lines 63-105) *)

Definition fetch_clickup_tasks : M (list json) :=
  try_except
    (spaces ← _make_request "team/3342101/space";
     space_list ← lift (py_get spaces "spaces" (JArr []) ≫= py_iter);
     for_each space_list [] (λ (space : json) (documents : list json),
       space_id ← lift (py_getitem space "id");
       space_name ← lift (py_getitem space "name");
       folders ← _make_request ("space/" +:+ py_str space_id +:+ "/folder");
       folder_list ← lift (py_get folders "folders" (JArr []) ≫= py_iter);
       for_each folder_list documents (λ (folder : json) (documents : list json),
         folder_id ← lift (py_getitem folder "id");
         folder_name ← lift (py_getitem folder "name");
         lists ← _make_request ("folder/" +:+ py_str folder_id +:+ "/list");
         list_list ← lift (py_get lists "lists" (JArr []) ≫= py_iter);
         for_each list_list documents (λ (list_obj : json) (documents : list json),
           list_id ← lift (py_getitem list_obj "id");
           list_name ← lift (py_getitem list_obj "name");
           tasks ← _make_request ("list/" +:+ py_str list_id +:+ "/task");
           task_list ← lift (py_get tasks "tasks" (JArr []) ≫= py_iter);
           for_each task_list documents (λ (task : json) (documents : list json),
             task_data ← lift (normalize_task task list_name folder_name
                                              space_name);
             mret (documents ++ [task_data])%list)))))
    (λ e, logger ERROR ("Error fetching ClickUp data: " +:+ str_exn e);;
          raise e).

(** ** The ingest trigger (lines 107-114) *)

Definition ingest : M json :=
  try_except
    (tasks ← fetch_clickup_tasks;
     save_to_json tasks;;
     mret (JObj {[ "message" := JStr "Data ingested successfully" ]}))
    (λ e, raise (HTTPException 500 (str_exn e))).

(** ** Query Responder (lines 116-151) *)

(** The f-string of lines 130-138. *)
Definition task_text (task : json) : result string :=
  title ← py_getitem task "title";
  description ← py_getitem task "description";
  status ← py_getitem task "status";
  priority ← py_getitem task "priority";
  due_date ← py_getitem task "due_date";
  created_date ← py_getitem task "created_date";
  assigned_to ← py_getitem task "assigned_to";
  Ok (nl +:+
      "            Title: " +:+ py_str (py_or title (JStr "No title")) +:+ nl +:+
      "            Description: " +:+
        py_str (py_or description (JStr "No description")) +:+ nl +:+
      "            Status: " +:+ py_str (py_or status (JStr "Unknown")) +:+ nl +:+
      "            Priority: " +:+ py_str (py_or priority (JStr "Not set")) +:+ nl +:+
      "            Due Date: " +:+ py_str (py_or due_date (JStr "None")) +:+ nl +:+
      "            Created Date: " +:+
        py_str (py_or created_date (JStr "None")) +:+ nl +:+
      "            Assigned To: " +:+
        py_str (py_or assigned_to (JStr "None")) +:+ nl +:+
      "            ").

(** The body of the loop over the stored tasks. *)
Definition collect (query : string) (task : json) (relevant_texts : list string)
  : result (list string) :=
  hit ← record_matches query task;
  if hit : bool then
    text ← task_text task;
    Ok (relevant_texts ++ [text])%list
  else Ok relevant_texts.

(** What [query_knowledge] returns is a dict with the one key
    [response]; a [reply] is the value under that key: a fixed text, or
    the object the model returned. *)
Inductive reply : Type :=
  | FixedText (text : string)
  | ModelResponse (response : ChatResponse).

Definition no_match : reply := FixedText "No matching tasks found.".

Definition system_prompt : string :=
  "You are an AI assistant that retrieves tasks assigned to a user from ClickUp data.".

(** The two messages sent to the model.  ["\n".join] is applied to a
    string, so it walks its characters. *)
Definition chat_messages (formatted_tasks : string) : json :=
  JArr [ JObj (list_to_map [ ("role", JStr "system");
                             ("content", JStr system_prompt) ]);
         JObj (list_to_map [ ("role", JStr "user");
                             ("content",
                              JStr (String.concat nl (chars formatted_tasks))) ]) ].

Definition query_knowledge (req_query : string) : M reply :=
  tasks ← load_from_json;
  let query := lower req_query in
  task_list ← lift (py_iter tasks);
  relevant_texts ← for_each task_list []
                     (λ (task : json) (texts : list string),
                        lift (collect query task texts));
  match relevant_texts with
  | [] => mret no_match
  | _ =>
      let formatted_tasks := String.concat (nl +:+ nl) relevant_texts in
      response ← chat "deepseek-r1:14b" (chat_messages formatted_tasks);
      mret (ModelResponse response)
  end.

(** ** Properties of a run *)

(** A request failed between [s] and [s']: the log gained the line
    [_make_request] writes in its [except] branch. *)
Definition fetch_failed (s s' : State) : Prop :=
  Exists fetch_failure (drop (length (st_log s)) (st_log s')).

(** A computation that leaves the document and the model alone, only
    appends to the log, and raises whenever a request fails in it. *)
Definition quiet {A} (m : M A) : Prop :=
  ∀ s, ∃ new : list log_line,
    st_disk (m s).2 = st_disk s ∧
    st_chats (m s).2 = st_chats s ∧
    st_log (m s).2 = (st_log s ++ new)%list ∧
    (Exists fetch_failure new → is_raise (m s).1 = true).

(** Whatever the computation returns normally satisfies [Q]. *)
Definition yields {A} (m : M A) (Q : A → Prop) : Prop :=
  ∀ s a s', m s = (Ok a, s') → Q a.

(** ** Further notions

    The keys of a remote task that normalisation reads (lines 88-99). *)
Definition read_keys : list string :=
  [ "name"; "description"; "status"; "priority"; "due_date";
    "date_created"; "assignees"; "id"; "url" ].

(** The keys read with a plain default, [task.get(key, default)]. *)
Definition plain_defaults : list (string * json) :=
  [ ("name", JStr ""); ("description", JStr ""); ("due_date", JStr "None");
    ("date_created", JStr "None"); ("assignees", JArr []); ("url", JStr "") ].

(** The exception lines 88-99 raise on a task, if any: the values are
    evaluated in the order written, so [get] on a task that is not a
    dict comes first, then [get] on a status that is not a dict, then
    the missing identifier. *)
Definition normalize_error (task : json) : option exn :=
  match task with
  | JObj m =>
      match m !! "status" with
      | Some st =>
          if is_dict st then
            match m !! "id" with Some _ => None | None => Some (KeyError "id") end
          else Some (AttributeError (type_name st) "get")
      | None =>
          match m !! "id" with Some _ => None | None => Some (KeyError "id") end
      end
  | _ => Some (AttributeError (type_name task) "get")
  end.

(** The log line of a failed request, and a stretch of log without
    one. *)
Definition failure_line (url msg : string) : log_line :=
  (ERROR, "Error calling " +:+ url +:+ ": " +:+ msg).

Definition no_failure (lines : list log_line) : Prop :=
  Forall (λ line, ¬ fetch_failure line) lines.

(** A computation in which a failed request is the last thing logged:
    either no request fails, or the lines end with the one failure and
    the computation raises the HTTP 500 made from it. *)
Definition fail_fast {A} (m : M A) : Prop :=
  ∀ s, ∃ new : list log_line,
    st_log (m s).2 = (st_log s ++ new)%list ∧
    (no_failure new ∨
     ∃ pre url msg,
       new = (pre ++ [failure_line url msg])%list ∧
       no_failure pre ∧
       (m s).1 = Raise (HTTPException 500 ("ClickUp API error: " +:+ msg))).

(** The acknowledgement [ingest] returns. *)
Definition ingested : json :=
  JObj {[ "message" := JStr "Data ingested successfully" ]}.





(** The content of the user message among the messages sent to the
    model. *)
Definition user_content (messages : json) : option json :=
  match messages with
  | JArr [_; message] => field "content" message
  | _ => None
  end.

(** Two values the renderer cannot tell apart: equal, or both false in
    a test, so that [or] replaces both by the placeholder. *)
Definition renders_alike (v1 v2 : json) : Prop :=
  v1 = v2 ∨ (truthy v1 = false ∧ truthy v2 = false).

(** ** The walk as a function of the remote answers

    For a remote API that answers an address the same way every time,
    [remote url] is that answer.  The records of a list, a folder, a
    space and the workspace are then given by nested traversals, in
    the order of the answers; the first exception met is the result. *)

Fixpoint traverse {A B} (f : A → result B) (l : list A) : result (list B) :=
  match l with
  | [] => Ok []
  | x :: l' => y ← f x; ys ← traverse f l'; Ok (y :: ys)
  end.

Definition remote_get (remote : string → string + json) (endpoint : string)
  : result json :=
  match remote ("https://api.clickup.com/api/v2/" +:+ endpoint) with
  | inr body => Ok body
  | inl msg => Raise (HTTPException 500 ("ClickUp API error: " +:+ msg))
  end.

(** [body.get(key, [])], walked by a [for] loop. *)
Definition entries (body : json) (key : string) : result (list json) :=
  py_get body key (JArr []) ≫= py_iter.

Definition records_of_list (remote : string → string + json)
    (space_name folder_name list_obj : json) : result (list json) :=
  list_id ← py_getitem list_obj "id";
  list_name ← py_getitem list_obj "name";
  tasks ← remote_get remote ("list/" +:+ py_str list_id +:+ "/task");
  task_list ← entries tasks "tasks";
  traverse (λ task, normalize_task task list_name folder_name space_name)
           task_list.

Definition records_of_folder (remote : string → string + json)
    (space_name folder : json) : result (list json) :=
  folder_id ← py_getitem folder "id";
  folder_name ← py_getitem folder "name";
  lists ← remote_get remote ("folder/" +:+ py_str folder_id +:+ "/list");
  list_list ← entries lists "lists";
  per_list ← traverse (records_of_list remote space_name folder_name) list_list;
  Ok (concat per_list).

Definition records_of_space (remote : string → string + json) (space : json)
  : result (list json) :=
  space_id ← py_getitem space "id";
  space_name ← py_getitem space "name";
  folders ← remote_get remote ("space/" +:+ py_str space_id +:+ "/folder");
  folder_list ← entries folders "folders";
  per_folder ← traverse (records_of_folder remote space_name) folder_list;
  Ok (concat per_folder).

Definition records_of_workspace (remote : string → string + json)
  : result (list json) :=
  spaces ← remote_get remote "team/3342101/space";
  space_list ← entries spaces "spaces";
  per_space ← traverse (records_of_space remote) space_list;
  Ok (concat per_space).

(** A computation whose result is [r] in every state. *)
Definition runs_to {A} (m : M A) (r : result A) : Prop :=
  ∀ s, (m s).1 = r.

(** * Normalisation *)

Lemma normalize_task_dict (m : gmap string json) (ln fn sn : json) :
  normalize_task (JObj m) ln fn sn =
  status ← norm_status (JObj m);
  priority ← norm_priority (JObj m);
  task_id ← py_getitem (JObj m) "id";
  Ok (JObj (list_to_map
    [ ("title", default (JStr "") (m !! "name"));
      ("description", default (JStr "") (m !! "description"));
      ("status", status);
      ("priority", priority);
      ("due_date", default (JStr "None") (m !! "due_date"));
      ("created_date", default (JStr "None") (m !! "date_created"));
      ("assigned_to", default (JArr []) (m !! "assignees"));
      ("task_id", task_id);
      ("list_name", ln);
      ("folder_name", fn);
      ("space_name", sn);
      ("url", default (JStr "") (m !! "url")) ])).
Proof. reflexivity. Qed.

Lemma norm_status_missing (m : gmap string json) :
  status_missing m = true → norm_status (JObj m) = Ok (JStr "Unknown").
Proof.
  unfold status_missing, norm_status. cbn.
  destruct (m !! "status") as [[]|]; cbn; try discriminate; try reflexivity.
  intros H%bool_decide_eq_true. by rewrite H.
Qed.

Lemma norm_status_well_shaped (m : gmap string json) :
  status_well_shaped m = true ↔ ∃ st, norm_status (JObj m) = Ok st.
Proof.
  unfold status_well_shaped, norm_status. cbn.
  destruct (m !! "status") as [[]|]; cbn; split;
    try discriminate; try (intros [? ?]; discriminate); eauto.
Qed.

Lemma norm_priority_total (m : gmap string json) :
  ∃ p, norm_priority (JObj m) = Ok p.
Proof.
  unfold norm_priority. cbn.
  destruct (m !! "priority") as [[]|]; cbn; eauto.
Qed.

Lemma norm_priority_unusable (m : gmap string json) :
  priority_unusable m = true → norm_priority (JObj m) = Ok (JStr "Not set").
Proof.
  unfold priority_unusable, norm_priority. cbn.
  destruct (m !! "priority") as [[]|]; cbn; try reflexivity.
  intros H%bool_decide_eq_true. by rewrite H.
Qed.

(** Normalising a task object succeeds exactly when the identifier is
    there and the status is absent or an object. *)
Lemma normalize_task_succeeds (m : gmap string json) (ln fn sn : json) :
  (∃ rec, normalize_task (JObj m) ln fn sn = Ok rec) ↔
  is_Some (m !! "id") ∧ status_well_shaped m = true.
Proof.
  rewrite normalize_task_dict, norm_status_well_shaped.
  destruct (norm_priority_total m) as [p ->].
  destruct (norm_status (JObj m)) as [st|e]; cbn.
  - destruct (m !! "id") as [i|]; cbn; split.
    + eauto.
    + eauto.
    + intros [? ?]; discriminate.
    + intros [[? ?] _]; discriminate.
  - split; [intros [? ?]; discriminate | intros [_ [? ?]]; discriminate].
Qed.

(** Only a dict can be normalised. *)
Lemma normalize_task_is_dict (task ln fn sn rec : json) :
  normalize_task task ln fn sn = Ok rec → ∃ m, task = JObj m.
Proof. destruct task; try discriminate. eauto. Qed.

(** C4.  A task object with no [status] key, or whose status object has
    no inner [status] key, normalises to a record whose status is the
    string "Unknown".  The status expression itself evaluates to
    "Unknown"; the whole normalisation then produces a record carrying
    it, and can only fail for want of the required identifier. *)
Theorem missing_status_is_unknown (task : gmap string json) (ln fn sn : json) :
  status_missing task = true →
  norm_status (JObj task) = Ok (JStr "Unknown") ∧
  match normalize_task (JObj task) ln fn sn with
  | Ok rec => field "status" rec = Some (JStr "Unknown")
  | Raise e => task !! "id" = None ∧ e = KeyError "id"
  end.
Proof.
  intros Hst. pose proof (norm_status_missing _ Hst) as Hs.
  split; [exact Hs|].
  rewrite normalize_task_dict, Hs.
  destruct (norm_priority_total task) as [p ->]. cbn.
  destruct (task !! "id"); cbn; auto.
Qed.

(** C5.  A task object whose [priority] is absent, is not an object
    (null, a plain string, a number, a list), or is an object without an
    inner [priority] key, normalises to a record whose priority is the
    string "Not set".  The priority expression never raises on a task
    object; the record exists whenever the identifier is present and
    the status is absent or an object. *)
Theorem unusable_priority_is_not_set (task : gmap string json) (ln fn sn : json) :
  priority_unusable task = true →
  norm_priority (JObj task) = Ok (JStr "Not set") ∧
  (∀ rec, normalize_task (JObj task) ln fn sn = Ok rec →
          field "priority" rec = Some (JStr "Not set")) ∧
  (is_Some (task !! "id") → status_well_shaped task = true →
   ∃ rec, normalize_task (JObj task) ln fn sn = Ok rec).
Proof.
  intros Hp. pose proof (norm_priority_unusable _ Hp) as Hn.
  split; [exact Hn|]. split.
  - intros rec. rewrite normalize_task_dict, Hn.
    destruct (norm_status (JObj task)); cbn; [|discriminate].
    destruct (task !! "id"); cbn; [|discriminate].
    intros [= <-]. reflexivity.
  - intros Hid Hst. apply normalize_task_succeeds. auto.
Qed.

(** C2.  The task [{"id": "1", "status": "open"}] has an identifier and
    a status that is a plain string.  Normalising it raises
    [AttributeError]: the status line calls [get] on the string, where
    the priority line next to it tests [isinstance(..., dict)] first. *)
Theorem string_status_raises (ln fn sn : json) :
  normalize_task
    (JObj (list_to_map [ ("id", JStr "1"); ("status", JStr "open") ]))
    ln fn sn
  = Raise (AttributeError "str" "get") ∧
  norm_priority
    (JObj (list_to_map [ ("id", JStr "1"); ("priority", JStr "high") ]))
  = Ok (JStr "Not set").
Proof. split; reflexivity. Qed.

(** * Running computations *)

Lemma bind_run {A B} (m : M A) (f : A → M B) (s : State) :
  (m ≫= f) s =
  match m s with
  | (Ok a, s') => f a s'
  | (Raise e, s') => (Raise e, s')
  end.
Proof. reflexivity. Qed.

Lemma try_except_run {A} (body : M A) (handler : exn → M A) (s : State) :
  try_except body handler s =
  match body s with
  | (Ok a, s') => (Ok a, s')
  | (Raise e, s') => handler e s'
  end.
Proof. reflexivity. Qed.

(** ** Lines of the log that do not report a failed request *)

Lemma info_line_not_failure (msg : string) : ¬ fetch_failure (INFO, msg).
Proof. intros (url & m & [=]). Qed.

Lemma walk_line_not_failure (x : string) :
  ¬ fetch_failure (ERROR, "Error fetching ClickUp data: " +:+ x).
Proof. intros (url & m & [=]). Qed.

(** ** [quiet] is closed under the constructs the walker uses *)

Lemma quiet_lift {A} (r : result A) : quiet (lift r).
Proof.
  intros s. exists []. cbn. rewrite app_nil_r.
  repeat split. intros H. inversion H.
Qed.

Lemma quiet_ret {A} (a : A) : quiet (mret a).
Proof. apply (quiet_lift (Ok a)). Qed.

Lemma quiet_bind {A B} (m : M A) (f : A → M B) :
  quiet m → (∀ a, quiet (f a)) → quiet (m ≫= f).
Proof.
  intros Hm Hf s. rewrite bind_run.
  destruct (Hm s) as (n1 & Hd1 & Hc1 & Hl1 & Hr1).
  destruct (m s) as [[a|e] s1]; cbn in *.
  - destruct (Hf a s1) as (n2 & Hd2 & Hc2 & Hl2 & Hr2).
    exists (n1 ++ n2)%list. repeat split; try congruence.
    + rewrite Hl2, Hl1. by rewrite app_assoc.
    + intros [H|H]%Exists_app; [|auto]. by apply Hr1 in H.
  - exists n1. repeat split; auto.
Qed.

Lemma quiet_for_each {A B} (xs : list A) (acc : B) (body : A → B → M B) :
  (∀ x b, quiet (body x b)) → quiet (for_each xs acc body).
Proof.
  intros Hbody. revert acc.
  induction xs as [|x xs IH]; intros acc; cbn [for_each].
  - apply quiet_ret.
  - apply quiet_bind; auto.
Qed.

Lemma quiet_make_request (endpoint : string) : quiet (_make_request endpoint).
Proof.
  intros s.
  unfold _make_request, logger, requests_get, raise, mbind, M_bind, mret, M_ret.
  cbn [st_world st_disk st_log st_chats].
  destruct (http_get _ (st_world s)) as [[msg|body] w]; cbn.
  - eexists [_; _]. repeat split. by rewrite <- app_assoc.
  - eexists [_]. repeat split.
    intros H. apply Exists_cons in H as [H|H]; [|inversion H].
    by apply info_line_not_failure in H.
Qed.

(** X24.  A request fails exactly when the remote API answers with an
    error: then, and only then, the failure line is logged, and the
    request raises HTTP 500 with the text "ClickUp API error: " and the
    text of the error; otherwise it returns the body as it is. *)
Lemma make_request_outcome (endpoint : string) (s : State) :
  match (http_get ("https://api.clickup.com/api/v2/" +:+ endpoint)
           (st_world s)).1 with
  | inr body =>
      (_make_request endpoint s).1 = Ok body ∧
      ¬ fetch_failed s (_make_request endpoint s).2
  | inl msg =>
      (_make_request endpoint s).1
      = Raise (HTTPException 500 ("ClickUp API error: " +:+ msg)) ∧
      fetch_failed s (_make_request endpoint s).2
  end.
Proof.
  unfold fetch_failed, _make_request, logger, requests_get, raise,
    mbind, M_bind, mret, M_ret.
  cbn [st_world st_disk st_log st_chats].
  destruct (http_get _ (st_world s)) as [[msg|body] w]; cbn.
  - split; [reflexivity|]. rewrite <- app_assoc, drop_app_length.
    apply Exists_cons_tl, Exists_cons_hd. by eexists _, _.
  - split; [reflexivity|]. rewrite drop_app_length.
    intros H. apply Exists_cons in H as [H|H]; [|inversion H].
    by apply info_line_not_failure in H.
Qed.

Lemma quiet_reraise {A} (body : M A) (text : exn → string) :
  quiet body →
  (∀ e, ¬ fetch_failure (ERROR, text e)) →
  quiet (try_except body (λ e, logger ERROR (text e);; raise e)).
Proof.
  intros Hb Hline s. rewrite try_except_run.
  destruct (Hb s) as (n1 & Hd1 & Hc1 & Hl1 & Hr1).
  destruct (body s) as [[a|e] s1]; cbn in *.
  - exists n1. repeat split; auto.
  - exists (n1 ++ [(ERROR, text e)])%list.
    unfold logger, raise, mbind, M_bind. cbn.
    repeat split; auto.
    rewrite Hl1. by rewrite app_assoc.
Qed.

Lemma quiet_fetch_clickup_tasks : quiet fetch_clickup_tasks.
Proof.
  unfold fetch_clickup_tasks.
  apply quiet_reraise; [|intros e; apply walk_line_not_failure].
  repeat first
    [ apply quiet_make_request | apply quiet_lift | apply quiet_ret
    | apply quiet_for_each; intros ? ? | apply quiet_bind; [|intros ?] ].
Qed.

(** ** [yields] is closed under the same constructs *)

Lemma yields_weaken {A} (m : M A) (P Q : A → Prop) :
  yields m P → (∀ a, P a → Q a) → yields m Q.
Proof. intros Hm HPQ s a s' H. eauto. Qed.

Lemma yields_any {A} (m : M A) : yields m (λ _, True).
Proof. by intros s a s' _. Qed.

Lemma yields_ret {A} (a : A) (Q : A → Prop) : Q a → yields (mret a) Q.
Proof. intros HQ s b s' [= <- _]. exact HQ. Qed.

Lemma yields_lift {A} (r : result A) (Q : A → Prop) :
  (∀ a, r = Ok a → Q a) → yields (lift r) Q.
Proof. intros HQ s b s' [= -> _]. by apply HQ. Qed.

Lemma yields_bind {A B} (m : M A) (f : A → M B) (P : A → Prop) (Q : B → Prop) :
  yields m P → (∀ a, P a → yields (f a) Q) → yields (m ≫= f) Q.
Proof.
  intros Hm Hf s b s'. rewrite bind_run.
  destruct (m s) as [[a|e] s1] eqn:E; [|discriminate].
  intros H. eapply Hf; eauto.
Qed.

Lemma yields_for_each {A B} (xs : list A) (acc : B) (body : A → B → M B)
    (I : B → Prop) :
  I acc → (∀ x b, I b → yields (body x b) I) → yields (for_each xs acc body) I.
Proof.
  intros Hacc Hbody. revert acc Hacc.
  induction xs as [|x xs IH]; intros acc Hacc; cbn [for_each].
  - by apply yields_ret.
  - eapply yields_bind; eauto.
Qed.

Lemma yields_reraise {A} (body : M A) (text : exn → string) (Q : A → Prop) :
  yields body Q →
  yields (try_except body (λ e, logger ERROR (text e);; raise e)) Q.
Proof.
  intros Hb s a s'. rewrite try_except_run.
  destruct (body s) as [[b|e] s1] eqn:E.
  - intros [= <- <-]. eauto.
  - discriminate.
Qed.

(** * Ingestion *)

(** A failed walk leaves the document as it was: [ingest] reaches
    [save_to_json] only after the walk has returned. *)
Lemma ingest_after_failed_walk (s : State) (e : exn) :
  (fetch_clickup_tasks s).1 = Raise e →
  (ingest s).1 = Raise (HTTPException 500 (str_exn e)) ∧
  st_disk (ingest s).2 = st_disk s.
Proof.
  destruct (quiet_fetch_clickup_tasks s) as (new & Hd & _).
  unfold ingest. rewrite try_except_run, bind_run.
  destruct (fetch_clickup_tasks s) as [[docs|e'] s1]; cbn in *; [discriminate|].
  intros [= ->]. auto.
Qed.

(** C1.  If a request of the walk fails (at any of the four levels),
    the walk raises instead of returning records, [ingest] answers with
    an HTTP 500 error, and the stored document is what it was before
    the ingestion started. *)
Theorem failed_fetch_aborts_ingestion (s : State) :
  fetch_failed s (fetch_clickup_tasks s).2 →
  is_raise (fetch_clickup_tasks s).1 = true ∧
  (∃ detail, (ingest s).1 = Raise (HTTPException 500 detail)) ∧
  st_disk (ingest s).2 = st_disk s.
Proof.
  destruct (quiet_fetch_clickup_tasks s) as (new & Hd & _ & Hl & Hr).
  unfold fetch_failed. rewrite Hl, drop_app_length. intros H%Hr.
  split; [exact H|].
  destruct (fetch_clickup_tasks s).1 as [docs|e] eqn:Hwalk; [discriminate|].
  destruct (ingest_after_failed_walk s e Hwalk) as [-> ->]. eauto.
Qed.

Lemma normalize_task_complete (task ln fn sn rec : json) :
  normalize_task task ln fn sn = Ok rec → complete_record rec.
Proof.
  intros H. destruct (normalize_task_is_dict _ _ _ _ _ H) as [m ->].
  rewrite normalize_task_dict in H.
  destruct (norm_status (JObj m)); [|discriminate].
  destruct (norm_priority (JObj m)); [|discriminate].
  cbn in H. destruct (m !! "id"); [|discriminate].
  injection H as <-. eexists. split; [reflexivity|].
  by rewrite !dom_insert_L, dom_empty_L.
Qed.

Lemma complete_record_has_keys (rec : json) :
  complete_record rec → has_keys record_keys rec = true.
Proof.
  intros (m & -> & Hdom). apply forallb_forall. intros k Hk. cbn.
  apply bool_decide_eq_true, elem_of_dom. rewrite Hdom.
  by apply elem_of_list_to_set, list_elem_of_In.
Qed.

(** The renderer reads seven keys with [task[...]]; on a dict that has
    them the f-string is built without an exception. *)
Lemma task_text_total (rec : json) :
  is_dict rec = true → has_keys rendered_keys rec = true →
  ∃ text, task_text rec = Ok text.
Proof.
  destruct rec as [| | | | | |m]; try discriminate. intros _ H.
  unfold has_keys, rendered_keys in H. cbn in H.
  repeat (let K := fresh "K" in
          apply andb_true_iff in H as [K H];
          apply bool_decide_eq_true in K as [? K]).
  unfold task_text. cbn.
  repeat match goal with E : _ !! _ = Some _ |- _ => rewrite E; clear E end.
  cbn. eauto.
Qed.

Lemma complete_record_renders (rec : json) :
  complete_record rec → ∃ text, task_text rec = Ok text.
Proof.
  intros Hc. pose proof (complete_record_has_keys _ Hc) as Hk.
  destruct Hc as (m & -> & _). apply task_text_total; [reflexivity|].
  unfold has_keys, record_keys, rendered_keys in *. cbn in *.
  repeat (apply andb_true_iff in Hk as [-> Hk]). reflexivity.
Qed.

Lemma yields_fetch_clickup_tasks :
  yields fetch_clickup_tasks (Forall complete_record).
Proof.
  unfold fetch_clickup_tasks. apply yields_reraise.
  do 2 (eapply yields_bind; [apply yields_any|intros ? _]).
  apply yields_for_each; [constructor|]. intros space docs1 Hdocs1.
  do 4 (eapply yields_bind; [apply yields_any|intros ? _]).
  apply yields_for_each; [assumption|]. intros folder docs2 Hdocs2.
  do 4 (eapply yields_bind; [apply yields_any|intros ? _]).
  apply yields_for_each; [assumption|]. intros list_obj docs3 Hdocs3.
  do 4 (eapply yields_bind; [apply yields_any|intros ? _]).
  apply yields_for_each; [assumption|]. intros task docs4 Hdocs4.
  eapply yields_bind.
  - apply yields_lift. intros rec Hrec.
    exact (normalize_task_complete _ _ _ _ _ Hrec).
  - intros rec Hrec. apply yields_ret, Forall_app. auto.
Qed.

(** C9.  Every record a successful walk returns has exactly the twelve
    fields, and the renderer's [task[...]] lookups on it succeed. *)
Theorem walk_records_are_complete (s s' : State) (docs : list json) :
  fetch_clickup_tasks s = (Ok docs, s') →
  Forall (λ rec, complete_record rec ∧
                 has_keys record_keys rec = true ∧
                 ∃ text, task_text rec = Ok text) docs.
Proof.
  intros H. apply yields_fetch_clickup_tasks in H.
  eapply Forall_impl; [exact H|]. intros rec Hrec. cbn.
  split; [exact Hrec|]. split.
  - by apply complete_record_has_keys.
  - by apply complete_record_renders.
Qed.

(** * Text *)

Lemma append_nil (b : string) : "" +:+ b = b.
Proof. reflexivity. Qed.

Lemma append_cons (c : ascii) (a b : string) :
  String c a +:+ b = String c (a +:+ b).
Proof. reflexivity. Qed.

Lemma prefix_spec (p s : string) :
  String.prefix p s = true ↔ ∃ rest, s = p +:+ rest.
Proof.
  revert s. induction p as [|a p IH]; intros s.
  - split; [intros _; by exists s|]. intros _. by destruct s.
  - destruct s as [|b s]; cbn [String.prefix].
    + split; [discriminate|]. intros [rest [=]].
    + destruct (ascii_dec a b) as [->|Hne].
      * rewrite IH. split; intros [rest H]; exists rest;
          rewrite append_cons in *; congruence.
      * split; [discriminate|]. intros [rest [= ? ?]]. congruence.
Qed.

(** [needle in hay] holds exactly when [hay] is some text, then
    [needle], then some text. *)
Lemma contains_spec (needle hay : string) :
  contains needle hay = true ↔ ∃ before after, hay = before +:+ needle +:+ after.
Proof.
  induction hay as [|c hay IH]; cbn [contains].
  - rewrite orb_false_r, prefix_spec. split.
    + intros [rest H]. by exists "", rest.
    + intros (before & after & H). destruct before; [by exists after|discriminate].
  - rewrite orb_true_iff, prefix_spec, IH. split.
    + intros [[rest H]|(before & after & H)].
      * by exists "", rest.
      * exists (String c before), after. by rewrite append_cons, H.
    + intros (before & after & H). destruct before as [|b before].
      * left. by exists after.
      * right. rewrite append_cons in H. injection H as _ H.
        by exists before, after.
Qed.

Lemma contains_empty (hay : string) : contains "" hay = true.
Proof. apply contains_spec. by exists "", hay. Qed.

Lemma lower_app (a b : string) : lower (a +:+ b) = lower a +:+ lower b.
Proof.
  induction a as [|c a IH]; [reflexivity|].
  rewrite append_cons. cbn [lower]. by rewrite append_cons, IH.
Qed.

Lemma lower_app_inv (s a b : string) :
  lower s = a +:+ b → ∃ s1 s2, s = s1 +:+ s2 ∧ lower s1 = a ∧ lower s2 = b.
Proof.
  revert s. induction a as [|c a IH]; intros s H.
  - by exists "", s.
  - destruct s as [|d s]; [discriminate|].
    rewrite append_cons in H. cbn [lower] in H. injection H as Hc H.
    destruct (IH _ H) as (s1 & s2 & -> & <- & <-).
    exists (String d s1), s2. cbn [lower]. by rewrite Hc.
Qed.

Lemma lower_eq_letters (a b : string) :
  lower a = lower b ↔
  Forall2 same_letter (list_ascii_of_string a) (list_ascii_of_string b).
Proof.
  revert b. induction a as [|c a IH]; intros [|d b]; cbn; split; intros H;
    try discriminate; try (by inversion H); try constructor.
  - by injection H.
  - apply IH. by injection H.
  - inversion H as [|? ? ? ? Hc Hr]; subst. apply IH in Hr.
    unfold same_letter in Hc. congruence.
Qed.

(** Lowering both sides and searching is the same as finding a slice
    that agrees with the query up to case. *)
Lemma contains_lower_spec (q text : string) :
  contains (lower q) (lower text) = true ↔ occurs_ignoring_case q text.
Proof.
  rewrite contains_spec. unfold occurs_ignoring_case. split.
  - intros (before & after & H).
    apply lower_app_inv in H as (s1 & s2 & -> & <- & H).
    apply lower_app_inv in H as (s3 & s4 & -> & H & <-).
    exists s1, s3, s4. split; [reflexivity|]. by apply lower_eq_letters.
  - intros (before & mid & after & -> & H). apply lower_eq_letters in H.
    exists (lower before), (lower after). by rewrite !lower_app, H.
Qed.

(** Two characters are the same letter when they are equal or are the
    upper and lower case of one letter. *)
Lemma same_letter_iff (a b : ascii) :
  same_letter a b ↔
  a = b ∨
  (is_upper a = true ∧ nat_of_ascii b = nat_of_ascii a + 32) ∨
  (is_upper b = true ∧ nat_of_ascii a = nat_of_ascii b + 32).
Proof.
  assert (∀ c n, nat_of_ascii c = n → c = ascii_of_nat n) as Hcode.
  { intros c n <-. by rewrite ascii_nat_embedding. }
  assert (∀ c, is_upper c = true →
               nat_of_ascii (ascii_of_nat (nat_of_ascii c + 32))
               = nat_of_ascii c + 32) as Hshift.
  { intros c Hc. apply nat_ascii_embedding.
    unfold is_upper in Hc. apply andb_true_iff in Hc as [_ Hc%Nat.leb_le]. lia. }
  unfold same_letter, lower_ascii.
  destruct (is_upper a) eqn:Ha, (is_upper b) eqn:Hb.
  - split.
    + intros H. left. apply (f_equal nat_of_ascii) in H.
      rewrite !Hshift in H by done.
      rewrite <- (ascii_nat_embedding a), <- (ascii_nat_embedding b).
      f_equal. lia.
    + unfold is_upper in Ha, Hb.
      apply andb_true_iff in Ha as [Ha1%Nat.leb_le Ha2%Nat.leb_le].
      apply andb_true_iff in Hb as [Hb1%Nat.leb_le Hb2%Nat.leb_le].
      intros [->|[[_ H]|[_ H]]]; [done|lia|lia].
  - split.
    + intros <-. right. left. split; [done|]. by apply Hshift.
    + intros [->|[[_ H]|[[=] _]]]; [congruence|].
      symmetry. by apply Hcode.
  - split.
    + intros ->. right. right. split; [done|]. by apply Hshift.
    + intros [->|[[[=] _]|[_ H]]]; [congruence|]. by apply Hcode.
  - split; [by left|]. by intros [->|[[[=] _]|[[=] _]]].
Qed.

Lemma same_letter_example :
  same_letter "B" "b" ∧ same_letter "b" "b" ∧ ¬ same_letter "b" "d" ∧
  ¬ same_letter "[" "{".
Proof. repeat split; try reflexivity; intros [=]. Qed.

(** * Matching *)

Lemma matching_text (o : option json) :
  text_field o = true →
  py_or (default (JStr "") o) (JStr "") = JStr (text_of o).
Proof.
  destruct o as [[| | | |t| |]|]; try discriminate; intros _; try reflexivity.
  cbn. unfold py_or. cbn. by destruct (String.eqb_spec t "") as [->|].
Qed.

Lemma record_matches_text (query : string) (rec : gmap string json) :
  text_field (rec !! "title") = true →
  text_field (rec !! "description") = true →
  record_matches query (JObj rec) =
  Ok (contains query (lower (text_of (rec !! "title"))) ||
      contains query (lower (text_of (rec !! "description")))).
Proof.
  intros Ht Hd. unfold record_matches. cbn.
  rewrite (matching_text _ Ht), (matching_text _ Hd). cbn.
  by destruct (contains query (lower (text_of (rec !! "title")))).
Qed.

(** * The Record Store *)

(** [load_from_json], case by case. *)
Lemma load_from_json_run (s : State) :
  load_from_json s =
  let failed e :=
    (Ok (JArr []),
     (logger ERROR ("Error loading from JSON: " +:+ str_exn e) s).2) in
  match st_disk s with
  | None => (Ok (JArr []), s)
  | Some text =>
      match os_read (st_world s) with
      | Some msg => failed (OSError msg)
      | None =>
          match json_loads text with
          | None => failed JSONDecodeError
          | Some data =>
              match py_get data "tasks" (JArr []) with
              | Ok v => (Ok v, s)
              | Raise e => failed e
              end
          end
      end
  end.
Proof.
  unfold load_from_json, try_except, path_exists, read_file, lift, raise,
    mbind, M_bind, mret, M_ret.
  destruct (st_disk s) as [text|] eqn:Hdisk; [|reflexivity]. cbn.
  rewrite Hdisk.
  destruct (os_read (st_world s)) as [msg|]; [by rewrite Hdisk|].
  destruct (json_loads text) as [data|]; [|by rewrite Hdisk].
  destruct (py_get data "tasks" (JArr [])); by rewrite ?Hdisk.
Qed.

(** Loading never raises, and touches neither the document, nor the
    world, nor the model. *)
Lemma load_from_json_frame (s : State) :
  (∃ v, (load_from_json s).1 = Ok v) ∧
  st_world (load_from_json s).2 = st_world s ∧
  st_disk (load_from_json s).2 = st_disk s ∧
  st_chats (load_from_json s).2 = st_chats s.
Proof.
  rewrite load_from_json_run. cbn zeta.
  destruct (st_disk s) as [text|] eqn:Hdisk; [|by eauto].
  destruct (os_read (st_world s)) as [msg|]; [by cbn; eauto|].
  destruct (json_loads text) as [data|]; [|by cbn; eauto].
  destruct (py_get data "tasks" (JArr [])); cbn; by eauto.
Qed.

(** The other ways a load falls back: the document cannot be opened,
    or its top level is not an object. *)
Lemma load_falls_back_other (s : State) (text : string) :
  st_disk s = Some text →
  is_Some (os_read (st_world s)) ∨
  (∃ data, json_loads text = Some data ∧ is_dict data = false) →
  (load_from_json s).1 = Ok (JArr []).
Proof.
  intros Hdisk H. rewrite load_from_json_run, Hdisk. cbn zeta.
  destruct (os_read (st_world s)) as [msg|]; [reflexivity|].
  destruct H as [[? [=]]|(data & -> & Hdata)].
  by destruct data.
Qed.

(** C6.  When the document does not exist, or exists and cannot be
    parsed, [load_from_json] returns the empty list and does not
    raise. *)
Theorem load_falls_back_to_empty (s : State) :
  st_disk s = None ∨
  (∃ text, st_disk s = Some text ∧ json_loads text = None) →
  (load_from_json s).1 = Ok (JArr []).
Proof.
  rewrite load_from_json_run.
  intros [->|(text & -> & ->)]; [reflexivity|].
  cbn zeta. by destruct (os_read (st_world s)).
Qed.

(** The document [save_to_json] writes when the write goes through. *)
Lemma save_to_json_run (documents : list json) (s : State) :
  let text := json_dumps (JObj {[ "tasks" := JArr documents ]}) in
  os_write (st_world s) text = Written →
  save_to_json documents s =
  (Ok (), mkState (st_world s) (Some text) (st_log s) (st_chats s)).
Proof.
  intros text Hw. unfold save_to_json. rewrite try_except_run.
  unfold write_file. fold text. by rewrite Hw.
Qed.

(** When the write fails, [save_to_json] logs and raises again. *)
Lemma save_to_json_fails (documents : list json) (s : State) :
  os_write (st_world s) (json_dumps (JObj {[ "tasks" := JArr documents ]}))
    ≠ Written →
  ∃ msg, (save_to_json documents s).1 = Raise (OSError msg).
Proof.
  intros Hw. unfold save_to_json. rewrite try_except_run. unfold write_file.
  destruct (os_write _ _) as [|msg|msg partial]; [done| |]; by exists msg.
Qed.

Lemma save_then_load (R : list json) (s : State) :
  os_write (st_world s) (json_dumps (JObj {[ "tasks" := JArr R ]})) = Written →
  os_read (st_world s) = None →
  ((save_to_json R;; load_from_json) s).1 =
  match json_loads (json_dumps (JObj {[ "tasks" := JArr R ]})) with
  | Some data => Ok (default (JArr []) (field "tasks" data))
  | None => Ok (JArr [])
  end.
Proof.
  intros Hw Hr. rewrite bind_run, (save_to_json_run _ _ Hw), load_from_json_run.
  cbn [st_disk st_world]. rewrite Hr. cbn zeta.
  destruct (json_loads _) as [data|]; [|reflexivity].
  by destruct data.
Qed.

(** The library's contract, for the values JSON represents: what
    [json.dumps] writes, [json.loads] reads back.  Under it every
    sequence of representable records survives the store. *)
Lemma store_round_trip_representable (R : list json) (s : State) :
  (∀ v, json_representable v = true → json_loads (json_dumps v) = Some v) →
  forallb json_representable R = true →
  os_write (st_world s) (json_dumps (JObj {[ "tasks" := JArr R ]})) = Written →
  os_read (st_world s) = None →
  ((save_to_json R;; load_from_json) s).1 = Ok (JArr R).
Proof.
  intros Hcodec HR Hw Hr. rewrite (save_then_load _ _ Hw Hr), Hcodec.
  - cbn. by rewrite lookup_singleton_eq.
  - change (map_fold (λ _ x acc, json_representable x && acc) true
              ({[ "tasks" := JArr R ]} : gmap string json) = true).
    rewrite map_fold_singleton. cbn. by rewrite HR.
Qed.

(** C3.  Storing a sequence of records and loading it back returns the
    same records in the same order, for every sequence whose document
    is JSON-representable: the JSON library reads the document back
    from the text it writes for it.  The file system is assumed to
    carry out the write and the read. *)
Theorem store_round_trip (R : list json) (s : State) :
  reads_back (JObj {[ "tasks" := JArr R ]}) →
  os_write (st_world s) (json_dumps (JObj {[ "tasks" := JArr R ]})) = Written →
  os_read (st_world s) = None →
  ((save_to_json R;; load_from_json) s).1 = Ok (JArr R).
Proof.
  unfold reads_back. intros Hcodec Hw Hr.
  rewrite (save_then_load _ _ Hw Hr), Hcodec. cbn.
  by rewrite lookup_singleton_eq.
Qed.

(** * The Query Responder *)


Lemma for_each_hits (query : string) (recs : list json) (acc : list string)
    (s : State) :
  Forall (λ rec, ∃ text, ∀ texts,
            collect query rec texts = Ok (texts ++ [text])%list) recs →
  ∃ found,
    length found = length recs ∧
    for_each recs acc (λ task texts, lift (collect query task texts)) s
    = (Ok (acc ++ found)%list, s).
Proof.
  intros H. revert acc.
  induction H as [|rec recs [text Hrec] _ IH]; intros acc.
  - exists []. by rewrite app_nil_r.
  - destruct (IH (acc ++ [text])%list) as (found & Hlen & Hrun).
    exists (text :: found). split; [cbn; by rewrite Hlen|].
    cbn [for_each]. rewrite bind_run. unfold lift at 1.
    rewrite Hrec, Hrun. by rewrite <- app_assoc.
Qed.

(** A record of the data model matches the empty query and renders. *)
Lemma task_record_hits (rec : json) :
  task_record rec = true →
  record_matches "" rec = Ok true ∧
  ∃ text, ∀ texts, collect "" rec texts = Ok (texts ++ [text])%list.
Proof.
  unfold task_record. rewrite !andb_true_iff. intros [[[Hd Hk] Ht] Hx].
  destruct (task_text_total rec Hd Hk) as [text Htext].
  destruct rec as [| | | | | |m]; try discriminate. cbn [field] in Ht, Hx.
  assert (record_matches "" (JObj m) = Ok true) as Hhit.
  { rewrite (record_matches_text _ _ Ht Hx). by rewrite !contains_empty. }
  split; [exact Hhit|]. exists text. intros texts.
  unfold collect. by rewrite Hhit, Htext.
Qed.

(** A record of the walk whose title and description are text is a
    task record in the sense used below. *)
Lemma complete_record_task_record (rec : json) :
  complete_record rec →
  text_field (field "title" rec) = true →
  text_field (field "description" rec) = true →
  task_record rec = true.
Proof.
  intros Hc Ht Hd. pose proof (complete_record_has_keys _ Hc) as Hk.
  destruct Hc as (m & -> & _). unfold task_record. rewrite Ht, Hd.
  unfold has_keys, record_keys, rendered_keys in *. cbn in *.
  repeat (apply andb_true_iff in Hk as [-> Hk]). reflexivity.
Qed.


(** C10.  With the empty query every stored record matches; on a
    non-empty store of task records the language model is called once,
    and the reply is what the model returns (or its exception), never
    the fixed no-match text. *)
Theorem empty_query_reaches_model (s : State) (recs : list json) :
  (load_from_json s).1 = Ok (JArr recs) →
  recs ≠ [] →
  forallb task_record recs = true →
  Forall (λ rec, record_matches (lower "") rec = Ok true) recs ∧
  ∃ messages,
    st_chats (query_knowledge "" s).2
      = (st_chats s ++ [("deepseek-r1:14b", messages)])%list ∧
    (query_knowledge "" s).1
      = ((ollama_chat "deepseek-r1:14b" messages (st_world s)).1
         ≫= λ response, Ok (ModelResponse response)) ∧
    (query_knowledge "" s).1 ≠ Ok no_match.
Proof.
  intros Hload Hne Hrecs.
  assert (Forall (λ rec, task_record rec = true) recs) as Hall.
  { apply Forall_forall. intros rec Hin.
    by apply (proj1 (forallb_forall _ _) Hrecs), list_elem_of_In. }
  split.
  { eapply Forall_impl; [exact Hall|]. intros rec Hrec.
    by apply task_record_hits. }
  destruct (load_from_json_frame s) as (_ & Hworld & _ & Hchats).
  destruct (for_each_hits "" recs [] (load_from_json s).2) as (found & Hlen & Hrun).
  { eapply Forall_impl; [exact Hall|]. intros rec Hrec.
    by apply task_record_hits. }
  destruct found as [|text found].
  { destruct recs; [done|discriminate]. }
  set (messages := chat_messages (String.concat (nl +:+ nl) (text :: found))).
  exists messages.
  assert (query_knowledge "" s =
          (chat "deepseek-r1:14b" messages
             ≫= λ response, mret (ModelResponse response))
            (load_from_json s).2) as ->.
  { unfold query_knowledge. rewrite bind_run.
    destruct (load_from_json s) as [r s1]. cbn in Hload, Hrun |- *. subst r.
    rewrite bind_run. unfold lift at 1. cbn [py_iter].
    by rewrite bind_run, Hrun. }
  rewrite bind_run. unfold chat. rewrite Hworld, Hchats.
  destruct (ollama_chat _ _ (st_world s)) as [[response|e] w]; cbn; done.
Qed.

(** * More on normalisation *)

(** X1.  Normalising a task raises exactly the exception
    [normalize_error] names, and returns a record when it names none:
    [AttributeError] for a task that is not a dict, [AttributeError]
    for a status that is present and not a dict (even when the
    identifier is missing too), [KeyError] for a missing identifier. *)
Theorem normalize_task_raises (task ln fn sn : json) (e : exn) :
  normalize_task task ln fn sn = Raise e ↔ normalize_error task = Some e.
Proof.
  destruct task as [| | | | | |m]; try (cbn; split; congruence).
  rewrite normalize_task_dict.
  destruct (norm_priority_total m) as [p ->].
  unfold normalize_error, norm_status. cbn.
  destruct (m !! "status") as [st|]; cbn.
  - destruct st; cbn; try (split; congruence).
    destruct (m !! "id"); cbn; split; congruence.
  - destruct (m !! "id"); cbn; split; congruence.
Qed.

(** X2.  Normalisation reads nine keys of the task and nothing else:
    two tasks that agree on those keys normalise alike, so any other
    field of the remote task is dropped. *)
Theorem normalize_task_reads_nine_keys
    (m1 m2 : gmap string json) (ln fn sn : json) :
  (∀ k, k ∈ read_keys → m1 !! k = m2 !! k) →
  normalize_task (JObj m1) ln fn sn = normalize_task (JObj m2) ln fn sn.
Proof.
  intros H. rewrite !normalize_task_dict.
  unfold norm_status, norm_priority, py_get, py_getitem.
  assert (∀ k, bool_decide (k ∈ read_keys) = true → m1 !! k = m2 !! k) as H'.
  { intros k Hk. apply H. by apply bool_decide_eq_true in Hk. }
  rewrite (H' "name"), (H' "description"), (H' "status"), (H' "priority"),
    (H' "due_date"), (H' "date_created"), (H' "assignees"), (H' "id"),
    (H' "url") by reflexivity.
  reflexivity.
Qed.

(** X3.  A key read with a plain default cannot be told from its
    default: a task without [due_date] and the same task with
    [due_date] set to the string "None" normalise alike, and so for
    the other five keys. *)
Theorem absent_field_equals_default
    (m : gmap string json) (k : string) (d ln fn sn : json) :
  (k, d) ∈ plain_defaults →
  m !! k = None →
  normalize_task (JObj (<[k:=d]> m)) ln fn sn
  = normalize_task (JObj m) ln fn sn.
Proof.
  intros Hk Hm. rewrite !normalize_task_dict.
  unfold norm_status, norm_priority, py_get, py_getitem, plain_defaults in *.
  repeat (apply elem_of_cons in Hk as [[= -> ->]|Hk]);
    [..|by apply elem_of_nil in Hk];
    rewrite ?lookup_insert_eq, ?lookup_insert_ne by done;
    by rewrite Hm.
Qed.

(** * More on the walk *)

Lemma fail_fast_lift {A} (r : result A) : fail_fast (lift r).
Proof.
  intros s. exists []. cbn. rewrite app_nil_r. split; [done|].
  left. constructor.
Qed.

Lemma fail_fast_bind {A B} (m : M A) (f : A → M B) :
  fail_fast m → (∀ a, fail_fast (f a)) → fail_fast (m ≫= f).
Proof.
  intros Hm Hf s. rewrite bind_run.
  destruct (Hm s) as (n1 & Hl1 & H1).
  destruct (m s) as [[a|e] s1]; cbn in *.
  - destruct H1 as [H1|(pre & url & msg & _ & _ & [=])].
    destruct (Hf a s1) as (n2 & Hl2 & H2).
    exists (n1 ++ n2)%list. split; [by rewrite Hl2, Hl1, app_assoc|].
    destruct H2 as [H2|(pre & url & msg & -> & Hpre & Hr)].
    + left. by apply Forall_app.
    + right. exists (n1 ++ pre)%list, url, msg.
      split; [by rewrite app_assoc|]. split; [by apply Forall_app|done].
  - exists n1. split; [done|].
    destruct H1 as [H1|(pre & url & msg & -> & Hpre & [= ->])]; [by left|].
    right. by exists pre, url, msg.
Qed.

Lemma fail_fast_for_each {A B} (xs : list A) (acc : B) (body : A → B → M B) :
  (∀ x b, fail_fast (body x b)) → fail_fast (for_each xs acc body).
Proof.
  intros Hbody. revert acc.
  induction xs as [|x xs IH]; intros acc; cbn [for_each].
  - apply (fail_fast_lift (Ok acc)).
  - apply fail_fast_bind; auto.
Qed.

Lemma fail_fast_make_request (endpoint : string) :
  fail_fast (_make_request endpoint).
Proof.
  intros s.
  unfold _make_request, logger, requests_get, raise, mbind, M_bind, mret, M_ret.
  cbn [st_world st_disk st_log st_chats].
  destruct (http_get _ (st_world s)) as [[msg|body] w]; cbn.
  - eexists [_; _]. split; [by rewrite <- app_assoc|].
    right. eexists [_], _, msg. split; [reflexivity|]. split; [|reflexivity].
    constructor; [apply info_line_not_failure|constructor].
  - eexists [_]. split; [reflexivity|]. left.
    constructor; [apply info_line_not_failure|constructor].
Qed.

(** X4.  A walk stops at the first request that fails.  Either no
    request fails, or the log of the walk ends with the failure line of
    one request followed by the walk's own error line: no request was
    made after it, the walk raises the HTTP 500 built from the failure,
    and [ingest] answers with a 500 whose detail is [str] of that
    exception. *)
Theorem walk_stops_at_first_failure (s : State) :
  ∃ new : list log_line,
    st_log (fetch_clickup_tasks s).2 = (st_log s ++ new)%list ∧
    (no_failure new ∨
     ∃ pre url msg,
       let e := HTTPException 500 ("ClickUp API error: " +:+ msg) in
       new = (pre ++ [ failure_line url msg;
                       (ERROR, "Error fetching ClickUp data: " +:+ str_exn e) ])%list ∧
       no_failure pre ∧
       (fetch_clickup_tasks s).1 = Raise e ∧
       (ingest s).1 = Raise (HTTPException 500 (str_exn e))).
Proof.
  assert (∃ new : list log_line,
    st_log (fetch_clickup_tasks s).2 = (st_log s ++ new)%list ∧
    (no_failure new ∨
     ∃ pre url msg,
       let e := HTTPException 500 ("ClickUp API error: " +:+ msg) in
       new = (pre ++ [ failure_line url msg;
                       (ERROR, "Error fetching ClickUp data: " +:+ str_exn e) ])%list ∧
       no_failure pre ∧
       (fetch_clickup_tasks s).1 = Raise e)) as (new & Hlog & Hnew).
  { unfold fetch_clickup_tasks.
    match goal with |- context [try_except ?b _] => set (body := b) end.
    assert (fail_fast body) as Hbody.
    { subst body.
      repeat first
        [ apply fail_fast_make_request | apply fail_fast_lift
        | apply (fail_fast_lift (Ok _))
        | apply fail_fast_for_each; intros ? ?
        | apply fail_fast_bind; [|intros ?] ]. }
    rewrite try_except_run.
    destruct (Hbody s) as (new & Hlog & Hnew).
    destruct (body s) as [[docs|e] s1]; cbn in *.
    - exists new. split; [done|].
      destruct Hnew as [Hnew|(pre & url & msg & _ & _ & [=])]. by left.
    - unfold logger, raise, mbind, M_bind. cbn.
      exists (new ++ [(ERROR, "Error fetching ClickUp data: " +:+ str_exn e)])%list.
      split; [by rewrite Hlog, app_assoc|].
      destruct Hnew as [Hnew|(pre & url & msg & -> & Hpre & [= ->])].
      + left. apply Forall_app. split; [done|].
        constructor; [apply walk_line_not_failure|constructor].
      + right. exists pre, url, msg. cbn zeta.
        split; [by rewrite <- app_assoc|]. done. }
  exists new. split; [done|].
  destruct Hnew as [Hnew|(pre & url & msg & Hshape & Hpre & Hraise)]; [by left|].
  right. exists pre, url, msg. cbn zeta in *. repeat split; try done.
  by destruct (ingest_after_failed_walk s _ Hraise).
Qed.

(** X5.  The walk reads the remote API and writes the log, nothing
    else: it leaves the stored document and the language model alone,
    and never removes a line from the log. *)
Theorem walk_touches_neither_store_nor_model (s : State) :
  st_disk (fetch_clickup_tasks s).2 = st_disk s ∧
  st_chats (fetch_clickup_tasks s).2 = st_chats s ∧
  st_log s `prefix_of` st_log (fetch_clickup_tasks s).2.
Proof.
  destruct (quiet_fetch_clickup_tasks s) as (new & Hd & Hc & Hl & _).
  repeat split; [done..|]. rewrite Hl. by apply prefix_app_r.
Qed.

Lemma make_request_ok (endpoint : string) (s : State) (body : json) (w : World) :
  http_get ("https://api.clickup.com/api/v2/" +:+ endpoint) (st_world s)
    = (inr body, w) →
  _make_request endpoint s =
  (Ok body,
   mkState w (st_disk s)
     (st_log s ++
      [(INFO, "Requesting: " +:+ "https://api.clickup.com/api/v2/" +:+ endpoint)])
     (st_chats s)).
Proof.
  intros Hget.
  unfold _make_request, logger, requests_get, mbind, M_bind, mret, M_ret.
  cbn [st_world st_disk st_log st_chats]. by rewrite Hget.
Qed.

(** X6.  A workspace without spaces: when the first answer has nothing
    to walk under [spaces] (the key is absent, or holds an empty list,
    dict or string), the walk returns the empty list after that one
    request. *)
Theorem walk_of_empty_workspace (s : State) (body : json) (w : World) :
  http_get "https://api.clickup.com/api/v2/team/3342101/space" (st_world s)
    = (inr body, w) →
  py_get body "spaces" (JArr []) ≫= py_iter = Ok [] →
  fetch_clickup_tasks s =
  (Ok [],
   mkState w (st_disk s)
     (st_log s ++
      [(INFO, "Requesting: https://api.clickup.com/api/v2/team/3342101/space")])
     (st_chats s)).
Proof.
  intros Hget Hspaces.
  unfold fetch_clickup_tasks. rewrite try_except_run, bind_run.
  rewrite (make_request_ok "team/3342101/space" s body w Hget).
  rewrite bind_run. unfold lift at 1. by rewrite Hspaces.
Qed.

(** * More on ingestion and the store *)

(** [ingest], case by case. *)
Lemma ingest_run (s : State) :
  ingest s =
  match fetch_clickup_tasks s with
  | (Ok docs, s1) =>
      let text := json_dumps (JObj {[ "tasks" := JArr docs ]}) in
      let failed msg disk :=
        (Raise (HTTPException 500 (str_exn (OSError msg))),
         mkState (st_world s1) disk
           (st_log s1 ++ [(ERROR, "Error saving to JSON: " +:+ str_exn (OSError msg))])
           (st_chats s1)) in
      match os_write (st_world s1) text with
      | Written =>
          (Ok ingested, mkState (st_world s1) (Some text) (st_log s1) (st_chats s1))
      | Refused msg => failed msg (st_disk s1)
      | Torn msg partial => failed msg (Some partial)
      end
  | (Raise e, s1) => (Raise (HTTPException 500 (str_exn e)), s1)
  end.
Proof.
  unfold ingest. rewrite try_except_run, bind_run.
  destruct (fetch_clickup_tasks s) as [[docs|e] s1]; [|reflexivity].
  rewrite bind_run. unfold save_to_json. rewrite try_except_run.
  unfold write_file. cbn zeta.
  by destruct (os_write (st_world s1) _).
Qed.

(** X7.  [ingest] lets nothing but an HTTP 500 out.  When it returns,
    it returns the fixed acknowledgement, the walk has succeeded and the
    document on disk is the encoding of exactly the walked records
    under the key [tasks]; every failure, of the walk or of the write,
    reaches the caller as [HTTPException] with status 500. *)
Theorem ingest_acknowledges_or_answers_500 (s : State) :
  match (ingest s).1 with
  | Ok ack =>
      ack = ingested ∧
      ∃ docs, (fetch_clickup_tasks s).1 = Ok docs ∧
              st_disk (ingest s).2
              = Some (json_dumps (JObj {[ "tasks" := JArr docs ]}))
  | Raise e => ∃ detail, e = HTTPException 500 detail
  end.
Proof.
  rewrite ingest_run.
  destruct (fetch_clickup_tasks s) as [[docs|e] s1]; cbn; [|by eauto].
  destruct (os_write (st_world s1) _); cbn; by eauto.
Qed.

(** X8.  A walk that succeeds followed by a write that fails: [ingest]
    answers 500 with the text of the [OSError], logs one line
    "Error saving to JSON", and the document is the old one when the
    file could not be opened, or the part written when the write broke
    off. *)
Theorem ingest_with_failed_write (s : State) (docs : list json) :
  (fetch_clickup_tasks s).1 = Ok docs →
  os_write (st_world (fetch_clickup_tasks s).2)
           (json_dumps (JObj {[ "tasks" := JArr docs ]})) ≠ Written →
  ∃ msg,
    (ingest s).1 = Raise (HTTPException 500 (str_exn (OSError msg))) ∧
    st_log (ingest s).2
    = (st_log (fetch_clickup_tasks s).2 ++
       [(ERROR, "Error saving to JSON: " +:+ str_exn (OSError msg))])%list ∧
    st_disk (ingest s).2
    = match os_write (st_world (fetch_clickup_tasks s).2)
              (json_dumps (JObj {[ "tasks" := JArr docs ]})) with
      | Torn _ partial => Some partial
      | _ => st_disk s
      end.
Proof.
  intros Hwalk Hwrite. rewrite ingest_run.
  destruct (quiet_fetch_clickup_tasks s) as (_ & Hdisk & _).
  destruct (fetch_clickup_tasks s) as [r s1]. cbn in Hwalk, Hwrite, Hdisk |- *.
  subst r. destruct (os_write (st_world s1) _) as [|msg|msg partial];
    [done|..]; exists msg; cbn; by rewrite ?Hdisk.
Qed.

(** X9.  The last write wins: after two stores in a row a load returns
    the second sequence, whatever the first one was. *)
Theorem second_store_replaces_first (R1 R2 : list json) (s : State) :
  os_write (st_world s) (json_dumps (JObj {[ "tasks" := JArr R1 ]})) = Written →
  os_write (st_world s) (json_dumps (JObj {[ "tasks" := JArr R2 ]})) = Written →
  os_read (st_world s) = None →
  reads_back (JObj {[ "tasks" := JArr R2 ]}) →
  ((save_to_json R1;; save_to_json R2;; load_from_json) s).1 = Ok (JArr R2).
Proof.
  intros Hw1 Hw2 Hr Hback.
  rewrite bind_run, (save_to_json_run _ _ Hw1).
  pose proof (save_then_load R2
    (mkState (st_world s)
       (Some (json_dumps (JObj {[ "tasks" := JArr R1 ]}))) (st_log s)
       (st_chats s)) Hw2 Hr) as H.
  cbn zeta. rewrite H, Hback. cbn. by rewrite lookup_singleton_eq.
Qed.

(** X10.  A document whose top level is an object: the load returns
    what is under [tasks] as it is, even when that is not a list, and
    the empty list when the key is absent; nothing is logged and the
    state is unchanged. *)
Theorem load_of_object_document
    (s : State) (text : string) (m : gmap string json) :
  st_disk s = Some text →
  os_read (st_world s) = None →
  json_loads text = Some (JObj m) →
  load_from_json s = (Ok (default (JArr []) (m !! "tasks")), s).
Proof.
  intros Hdisk Hread Hdoc.
  by rewrite load_from_json_run, Hdisk, Hread, Hdoc.
Qed.

(** X11.  Loading never raises.  It changes nothing but the log, to
    which it adds at most one line, an error line; and whenever it logs
    that line it returns the empty list. *)
Theorem load_never_raises (s : State) :
  ∃ v,
    (load_from_json s).1 = Ok v ∧
    st_world (load_from_json s).2 = st_world s ∧
    st_disk (load_from_json s).2 = st_disk s ∧
    st_chats (load_from_json s).2 = st_chats s ∧
    (st_log (load_from_json s).2 = st_log s ∨
     ∃ e, v = JArr [] ∧
          st_log (load_from_json s).2
          = (st_log s ++ [(ERROR, "Error loading from JSON: " +:+ str_exn e)])%list).
Proof.
  rewrite load_from_json_run. cbn zeta.
  destruct (st_disk s) as [text|] eqn:Hdisk; [|by eauto 10].
  destruct (os_read (st_world s)) as [msg|]; [by cbn; eauto 10|].
  destruct (json_loads text) as [data|]; [|by cbn; eauto 10].
  destruct (py_get data "tasks" (JArr [])); cbn; by eauto 10.
Qed.

(** X12.  A document whose top level is not an object, such as a bare
    list of records, is read as an empty store: the load returns the
    empty list and logs the [AttributeError] of calling [get] on it. *)
Theorem load_of_non_object_document (s : State) (text : string) (data : json) :
  st_disk s = Some text →
  os_read (st_world s) = None →
  json_loads text = Some data →
  is_dict data = false →
  load_from_json s =
  (Ok (JArr []),
   mkState (st_world s) (st_disk s)
     (st_log s ++
      [(ERROR, "Error loading from JSON: " +:+
               str_exn (AttributeError (type_name data) "get"))])
     (st_chats s)).
Proof.
  intros Hdisk Hread Hdoc Hdata.
  rewrite load_from_json_run, Hdisk, Hread, Hdoc. cbn zeta.
  destruct data; try discriminate; cbn; by rewrite Hdisk.
Qed.

(** X13.  What a successful ingest stores is what the query path
    loads: after [ingest] has walked [docs] and written them, a load in
    the state it leaves returns [docs]. *)
Theorem load_after_ingest (s : State) (docs : list json) :
  (fetch_clickup_tasks s).1 = Ok docs →
  os_write (st_world (fetch_clickup_tasks s).2)
           (json_dumps (JObj {[ "tasks" := JArr docs ]})) = Written →
  os_read (st_world (fetch_clickup_tasks s).2) = None →
  reads_back (JObj {[ "tasks" := JArr docs ]}) →
  (ingest s).1 = Ok ingested ∧
  (load_from_json (ingest s).2).1 = Ok (JArr docs).
Proof.
  intros Hwalk Hwrite Hread Hback. rewrite ingest_run.
  destruct (fetch_clickup_tasks s) as [r s1]. cbn in Hwalk, Hwrite, Hread |- *.
  subst r. rewrite Hwrite. split; [reflexivity|].
  rewrite load_from_json_run. cbn [st_disk st_world snd fst]. rewrite Hread.
  cbn zeta. rewrite Hback. cbn. by rewrite lookup_singleton_eq.
Qed.

(** * More on the Query Responder *)

(** The loop of [query_knowledge] runs pure code: it leaves the state
    as it is. *)
Lemma for_each_lift_state {A B} (xs : list A) (acc : B)
    (f : A → B → result B) (s : State) :
  (for_each xs acc (λ x b, lift (f x b)) s).2 = s.
Proof.
  revert acc. induction xs as [|x xs IH]; intros acc; [reflexivity|].
  cbn [for_each]. rewrite bind_run. unfold lift at 1.
  destruct (f x acc); [apply IH|reflexivity].
Qed.

(** [query_knowledge] in terms of its loop. *)
Lemma query_knowledge_run (req_query : string) (s : State) (tasks : json) :
  (load_from_json s).1 = Ok tasks →
  query_knowledge req_query s =
  let s1 := (load_from_json s).2 in
  match py_iter tasks with
  | Raise e => (Raise e, s1)
  | Ok recs =>
      match (for_each recs []
               (λ (task : json) (texts : list string),
                  lift (collect (lower req_query) task texts)) s1).1 with
      | Raise e => (Raise e, s1)
      | Ok [] => (Ok no_match, s1)
      | Ok texts =>
          (chat "deepseek-r1:14b"
             (chat_messages (String.concat (nl +:+ nl) texts))
           ≫= λ response, mret (ModelResponse response)) s1
      end
  end.
Proof.
  intros Hload. unfold query_knowledge. rewrite bind_run.
  destruct (load_from_json s) as [r s1]. cbn in Hload |- *. subst r.
  rewrite bind_run. unfold lift at 1.
  destruct (py_iter tasks) as [recs|e]; [|reflexivity].
  rewrite bind_run.
  pose proof (for_each_lift_state recs []
                (collect (lower req_query)) s1) as Hstate.
  destruct (for_each recs [] _ s1) as [[texts|e] s2]; cbn in Hstate |- *;
    subst s2; [|reflexivity].
  by destruct texts.
Qed.

(** X14.  Before any ingestion, when the document does not exist,
    every query, the empty one included, answers with the no-match
    text and leaves the state exactly as it was. *)
Theorem query_on_absent_store (req_query : string) (s : State) :
  st_disk s = None →
  query_knowledge req_query s = (Ok no_match, s).
Proof.
  intros Hdisk.
  assert (load_from_json s = (Ok (JArr []), s)) as Hload.
  { by rewrite load_from_json_run, Hdisk. }
  rewrite (query_knowledge_run req_query s (JArr [])) by (by rewrite Hload).
  by rewrite Hload.
Qed.

(** X15.  A query never writes the document and calls the model at
    most once.  Either the model is not called, the world is untouched
    and the reply is not a model response; or the model is called once,
    with the model name "deepseek-r1:14b", and the reply is not the
    no-match text. *)
Theorem query_calls_model_at_most_once (req_query : string) (s : State) :
  st_disk (query_knowledge req_query s).2 = st_disk s ∧
  ((st_chats (query_knowledge req_query s).2 = st_chats s ∧
    st_world (query_knowledge req_query s).2 = st_world s ∧
    ∀ response, (query_knowledge req_query s).1 ≠ Ok (ModelResponse response)) ∨
   (∃ messages,
      st_chats (query_knowledge req_query s).2
      = (st_chats s ++ [("deepseek-r1:14b", messages)])%list ∧
      (query_knowledge req_query s).1 ≠ Ok no_match)).
Proof.
  destruct (load_from_json_frame s) as ([tasks Hload] & Hw & Hd & Hc).
  rewrite (query_knowledge_run req_query s tasks Hload). cbn zeta.
  assert (∀ r : result reply,
            (∀ response, r ≠ Ok (ModelResponse response)) →
            st_disk (r, (load_from_json s).2).2 = st_disk s ∧
            ((st_chats (r, (load_from_json s).2).2 = st_chats s ∧
              st_world (r, (load_from_json s).2).2 = st_world s ∧
              ∀ response, (r, (load_from_json s).2).1 ≠ Ok (ModelResponse response)) ∨
             (∃ messages,
                st_chats (r, (load_from_json s).2).2
                = (st_chats s ++ [("deepseek-r1:14b", messages)])%list ∧
                (r, (load_from_json s).2).1 ≠ Ok no_match))) as Hsilent.
  { intros r Hr. split; [exact Hd|]. left. by repeat split. }
  destruct (py_iter tasks) as [recs|e]; [|by apply Hsilent].
  destruct (for_each recs [] _ _).1 as [[|text texts]|e];
    [by apply Hsilent| |by apply Hsilent].
  rewrite bind_run. unfold chat. rewrite Hw, Hc.
  destruct (ollama_chat _ _ (st_world s)) as [[response|e] w]; cbn;
    (split; [done|right; by eexists]).
Qed.






Lemma string_app_assoc (a b c : string) : (a +:+ b) +:+ c = a +:+ (b +:+ c).
Proof.
  induction a as [|x a IH]; [reflexivity|].
  by rewrite !append_cons, IH.
Qed.

Lemma contains_trans (a b c : string) :
  contains a b = true → contains b c = true → contains a c = true.
Proof.
  rewrite !contains_spec.
  intros (p1 & s1 & ->) (p2 & s2 & ->).
  exists (p2 +:+ p1), (s1 +:+ s2). by rewrite !string_app_assoc.
Qed.

Lemma py_or_alike (v1 v2 dflt : json) :
  renders_alike v1 v2 → py_or v1 dflt = py_or v2 dflt.
Proof. intros [->|[H1 H2]]; [done|]. unfold py_or. by rewrite H1, H2. Qed.

(** X20.  The renderer cannot tell an empty field from a null one: two
    records whose rendered fields are pairwise equal or both false in
    a test (null, the empty string, the empty list, zero, false) render
    to the same block. *)
Theorem falsy_fields_render_alike (m1 m2 : gmap string json) :
  (∀ k, k ∈ rendered_keys →
        ∃ v1 v2, m1 !! k = Some v1 ∧ m2 !! k = Some v2 ∧ renders_alike v1 v2) →
  task_text (JObj m1) = task_text (JObj m2).
Proof.
  intros H.
  assert (∀ k, bool_decide (k ∈ rendered_keys) = true →
               ∃ v1 v2, m1 !! k = Some v1 ∧ m2 !! k = Some v2 ∧
                        renders_alike v1 v2) as H'.
  { intros k Hk. apply H. by apply bool_decide_eq_true in Hk. }
  unfold task_text, py_getitem.
  destruct (H' "title" eq_refl) as (a1 & a2 & -> & -> & Ha).
  destruct (H' "description" eq_refl) as (b1 & b2 & -> & -> & Hb).
  destruct (H' "status" eq_refl) as (c1 & c2 & -> & -> & Hc).
  destruct (H' "priority" eq_refl) as (d1 & d2 & -> & -> & Hd).
  destruct (H' "due_date" eq_refl) as (e1 & e2 & -> & -> & He).
  destruct (H' "created_date" eq_refl) as (f1 & f2 & -> & -> & Hf).
  destruct (H' "assigned_to" eq_refl) as (g1 & g2 & -> & -> & Hg).
  cbn.
  by rewrite (py_or_alike _ _ _ Ha), (py_or_alike _ _ _ Hb),
    (py_or_alike _ _ _ Hc), (py_or_alike _ _ _ Hd), (py_or_alike _ _ _ He),
    (py_or_alike _ _ _ Hf), (py_or_alike _ _ _ Hg).
Qed.

Lemma concat_chars_cons (c d : ascii) (t : string) :
  String.concat nl (chars (String c (String d t)))
  = String c (String (ascii_of_nat 10) (String.concat nl (chars (String d t)))).
Proof. reflexivity. Qed.

Lemma concat_chars_get (t : string) (i : nat) :
  String.get (2 * i) (String.concat nl (chars t)) = String.get i t ∧
  (S i < String.length t →
   String.get (2 * i + 1) (String.concat nl (chars t))
   = Some (ascii_of_nat 10))%nat.
Proof.
  revert i. induction t as [|c t IH]; intros i.
  - split; [by destruct i|]. cbn. lia.
  - destruct t as [|d t].
    + split; [by destruct i as [|[|i]]|]. cbn. lia.
    + rewrite concat_chars_cons. destruct i as [|i].
      * split; [reflexivity|]. intros _. reflexivity.
      * destruct (IH i) as [IH1 IH2].
        replace (2 * S i) with (S (S (2 * i))) by lia.
        replace (S (S (2 * i)) + 1) with (S (S (2 * i + 1))) by lia.
        cbn [String.get]. split; [exact IH1|].
        intros Hlen. apply IH2. cbn [String.length] in *. lia.
Qed.

(** X21.  The user message sent to the model is not the rendered text
    but the text with a newline put between every two characters
    (line 149 joins over a string): its length is twice that of the
    text less one, its characters at even positions spell the text and
    its characters in between are newlines. *)
Theorem user_message_interleaves_newlines (formatted_tasks : string) (i : nat) :
  ∃ content,
    user_content (chat_messages formatted_tasks) = Some (JStr content) ∧
    String.length content = 2 * String.length formatted_tasks - 1 ∧
    String.get (2 * i) content = String.get i formatted_tasks ∧
    (S i < String.length formatted_tasks →
     String.get (2 * i + 1) content = Some (ascii_of_nat 10))%nat.
Proof.
  exists (String.concat nl (chars formatted_tasks)).
  split; [reflexivity|]. split; [|apply concat_chars_get].
  induction formatted_tasks as [|c t IH]; [reflexivity|].
  destruct t as [|d t]; [reflexivity|].
  rewrite concat_chars_cons. cbn [String.length] in *. lia.
Qed.

(** * The walk over a remote that answers the same way every time *)

Section StatelessRemote.

Variable remote : string → string + json.
Hypothesis remote_answers : ∀ url w, http_get url w = (remote url, w).

Lemma runs_to_lift {A} (r : result A) : runs_to (lift r) r.
Proof. by intros s. Qed.

Lemma runs_to_bind {A B C} (m : M A) (f : A → M B) (r : result A)
    (g : A → result C) (k : C → result B) :
  runs_to m r →
  (∀ a, runs_to (f a) (g a ≫= k)) →
  runs_to (m ≫= f) ((r ≫= g) ≫= k).
Proof.
  intros Hm Hf s. rewrite bind_run. specialize (Hm s).
  destruct (m s) as [[a|e] s1]; cbn in Hm; subst r; cbn; [apply Hf|done].
Qed.

Lemma runs_to_make_request (endpoint : string) :
  runs_to (_make_request endpoint) (remote_get remote endpoint).
Proof.
  intros s.
  unfold _make_request, remote_get, logger, requests_get, raise,
    mbind, M_bind, mret, M_ret.
  cbn [st_world st_disk st_log st_chats]. rewrite remote_answers.
  by destruct (remote _).
Qed.

(** A loop that appends what [g] gives for each element. *)
Lemma runs_to_for_each (xs acc : list json) (body : json → list json → M (list json))
    (g : json → result (list json)) :
  (∀ x docs, runs_to (body x docs) (g x ≫= λ new, Ok (docs ++ new)%list)) →
  runs_to (for_each xs acc body)
          ((per ← traverse g xs; Ok (concat per)) ≫= λ new, Ok (acc ++ new)%list).
Proof.
  intros Hbody. revert acc.
  induction xs as [|x xs IH]; intros acc s; cbn [for_each traverse].
  - cbn. by rewrite app_nil_r.
  - rewrite bind_run. specialize (Hbody x acc s).
    destruct (body x acc s) as [[docs|e] s1]; cbn in Hbody;
      destruct (g x) as [new|e']; cbn in Hbody |- *; try discriminate.
    + injection Hbody as ->. rewrite IH.
      destruct (traverse g xs); cbn; [|done]. by rewrite app_assoc.
    + done.
Qed.

(** The innermost loop appends one record for each task. *)
Lemma runs_to_for_each_task (xs acc : list json) (f : json → result json) :
  runs_to (for_each xs acc (λ task documents,
             task_data ← lift (f task); mret (documents ++ [task_data])%list))
          (traverse f xs ≫= λ new, Ok (acc ++ new)%list).
Proof.
  revert acc. induction xs as [|x xs IH]; intros acc s; cbn [for_each traverse].
  - cbn. by rewrite app_nil_r.
  - rewrite !bind_run. unfold lift at 1.
    destruct (f x) as [d|e]; cbn; [|done].
    rewrite IH. destruct (traverse f xs); cbn; [|done].
    by rewrite <- app_assoc.
Qed.

Lemma runs_to_reraise {A} (body : M A) (text : exn → string) (r : result A) :
  runs_to body r →
  runs_to (try_except body (λ e, logger ERROR (text e);; raise e)) r.
Proof.
  intros Hb s. rewrite try_except_run. specialize (Hb s).
  by destruct (body s) as [[a|e] s1].
Qed.

Lemma result_bind_ret {A} (r : result A) : (r ≫= λ a, Ok a) = r.
Proof. by destruct r. Qed.

Lemma runs_to_fetch_clickup_tasks :
  runs_to fetch_clickup_tasks (records_of_workspace remote).
Proof.
  unfold fetch_clickup_tasks. apply runs_to_reraise.
  rewrite <- (result_bind_ret (records_of_workspace remote)).
  unfold records_of_workspace.
  apply runs_to_bind; [apply runs_to_make_request|]. intros spaces.
  apply runs_to_bind; [apply runs_to_lift|]. intros space_list.
  apply (runs_to_for_each space_list [] _ (records_of_space remote)).
  intros space docs1. unfold records_of_space.
  apply runs_to_bind; [apply runs_to_lift|]. intros space_id.
  apply runs_to_bind; [apply runs_to_lift|]. intros space_name.
  apply runs_to_bind; [apply runs_to_make_request|]. intros folders.
  apply runs_to_bind; [apply runs_to_lift|]. intros folder_list.
  apply (runs_to_for_each folder_list docs1 _
           (records_of_folder remote space_name)).
  intros folder docs2. unfold records_of_folder.
  apply runs_to_bind; [apply runs_to_lift|]. intros folder_id.
  apply runs_to_bind; [apply runs_to_lift|]. intros folder_name.
  apply runs_to_bind; [apply runs_to_make_request|]. intros lists.
  apply runs_to_bind; [apply runs_to_lift|]. intros list_list.
  apply (runs_to_for_each list_list docs2 _
           (records_of_list remote space_name folder_name)).
  intros list_obj docs3. unfold records_of_list.
  apply runs_to_bind; [apply runs_to_lift|]. intros list_id.
  apply runs_to_bind; [apply runs_to_lift|]. intros list_name.
  apply runs_to_bind; [apply runs_to_make_request|]. intros tasks.
  apply runs_to_bind; [apply runs_to_lift|]. intros task_list.
  apply runs_to_for_each_task.
Qed.

(** X22.  Against a remote that answers each address the same way
    every time, the walk returns what the nested traversal of the
    answers gives: the records of every task of every list of every
    folder of every space, depth first in the order of the answers, or
    the first exception met on the way.  The result does not depend on
    the state the walk starts in. *)
Theorem walk_is_nested_traversal (s : State) :
  (fetch_clickup_tasks s).1 = records_of_workspace remote.
Proof. apply runs_to_fetch_clickup_tasks. Qed.

(** X23.  Ingesting again from an unchanged remote changes nothing in
    the store: when the operating system carries out every write, a
    second [ingest] gives the same answer as the first and leaves the
    document the first one left. *)
Theorem ingest_twice_stores_the_same (s : State) :
  (∀ w text, os_write w text = Written) →
  (ingest (ingest s).2).1 = (ingest s).1 ∧
  st_disk (ingest (ingest s).2).2 = st_disk (ingest s).2.
Proof.
  intros Hwrite.
  pose proof (ingest_run s) as Hfirst.
  pose proof (runs_to_fetch_clickup_tasks s) as H1.
  destruct (fetch_clickup_tasks s) as [r1 s1]. cbn in H1. subst r1.
  destruct (records_of_workspace remote) as [docs|e] eqn:Hwalk;
    cbn zeta in Hfirst; rewrite ?Hwrite in Hfirst; rewrite Hfirst;
    cbn [fst snd]; rewrite ingest_run;
    match goal with |- context [fetch_clickup_tasks ?s2] =>
      pose proof (runs_to_fetch_clickup_tasks s2) as H2;
      destruct (quiet_fetch_clickup_tasks s2) as (_ & Hdisk & _);
      destruct (fetch_clickup_tasks s2) as [r2 s3]
    end;
    cbn in H2, Hdisk; rewrite Hwalk in H2; subst r2; cbn zeta;
    rewrite ?Hwrite; by split.
Qed.

End StatelessRemote.

(** * Letter case *)

Lemma equal_up_to_case_same_letter (a b : ascii) :
  equal_up_to_case a b ↔ same_letter a b.
Proof.
  rewrite same_letter_iff. unfold equal_up_to_case, case_pair, is_upper.
  rewrite !andb_true_iff, !Nat.leb_le. tauto.
Qed.

Lemma occurs_up_to_case_lower (q text : string) :
  occurs_up_to_case q text ↔ contains (lower q) (lower text) = true.
Proof.
  rewrite contains_lower_spec. unfold occurs_up_to_case, occurs_ignoring_case.
  split; intros (before & mid & after & Htext & Hmid);
    exists before, mid, after; (split; [exact Htext|]);
    (eapply Forall2_impl; [exact Hmid|]);
    intros a b Hab; by apply equal_up_to_case_same_letter.
Qed.

Lemma record_matches_with_lower (query : string) (task : json) :
  record_matches_with lower query task = record_matches query task.
Proof. reflexivity. Qed.

Lemma record_matches_with_text (str_lower : string → string)
    (query : string) (rec : gmap string json) :
  text_field (rec !! "title") = true →
  text_field (rec !! "description") = true →
  record_matches_with str_lower query (JObj rec) =
  Ok (contains query (str_lower (text_of (rec !! "title"))) ||
      contains query (str_lower (text_of (rec !! "description")))).
Proof.
  intros Ht Hd. unfold record_matches_with. cbn.
  rewrite (matching_text _ Ht), (matching_text _ Hd). cbn.
  by destruct (contains query (str_lower (text_of (rec !! "title")))).
Qed.

(** C7, for ASCII text.  On ASCII text the match test is
    case-insensitive substring search.  Let [str_lower] be any lowering that does on
    ASCII text what [str.lower] does there.  For a stored record whose
    title and description are ASCII strings, null or missing, and for
    every ASCII query, the record matches exactly when the query occurs
    up to case inside the title or inside the description, a null or
    missing field counting as the empty text. *)
Theorem ascii_match_is_case_insensitive_substring
    (str_lower : string → string) (req_query : string)
    (rec : gmap string json) :
  (∀ s, is_ascii s = true → str_lower s = lower s) →
  text_field (rec !! "title") = true →
  text_field (rec !! "description") = true →
  is_ascii req_query = true →
  is_ascii (text_of (rec !! "title")) = true →
  is_ascii (text_of (rec !! "description")) = true →
  ∃ hit : bool,
    record_matches_with str_lower (str_lower req_query) (JObj rec) = Ok hit ∧
    (hit = true ↔
     occurs_up_to_case req_query (text_of (rec !! "title")) ∨
     occurs_up_to_case req_query (text_of (rec !! "description"))).
Proof.
  intros Hlow Ht Hd Hq Htitle Hdesc. eexists.
  split; [by apply record_matches_with_text|].
  rewrite (Hlow _ Hq), (Hlow _ Htitle), (Hlow _ Hdesc).
  by rewrite orb_true_iff, !occurs_up_to_case_lower.
Qed.

(** X18.  The case of an ASCII query does not matter: two ASCII queries
    that are equal character by character up to case get the same
    reply, the same call to the model and the same final state. *)
Theorem ascii_query_case_does_not_matter (q1 q2 : string) (s : State) :
  is_ascii q1 = true →
  is_ascii q2 = true →
  Forall2 equal_up_to_case (list_ascii_of_string q1) (list_ascii_of_string q2) →
  query_knowledge q1 s = query_knowledge q2 s.
Proof.
  intros _ _ H.
  assert (lower q1 = lower q2) as Hlow.
  { apply lower_eq_letters. eapply Forall2_impl; [exact H|].
    intros a b Hab. by apply equal_up_to_case_same_letter. }
  unfold query_knowledge. by rewrite Hlow.
Qed.

(** X19.  Shortening an ASCII query never loses a match.  Let
    [str_lower] do on ASCII text what [str.lower] does there.  When a
    record matches an ASCII query, it matches every ASCII text that
    occurs up to case inside that query, whatever the title and the
    description hold. *)
Theorem part_of_ascii_query_still_matches
    (str_lower : string → string) (q q' : string) (rec : gmap string json) :
  (∀ s, is_ascii s = true → str_lower s = lower s) →
  text_field (rec !! "title") = true →
  text_field (rec !! "description") = true →
  is_ascii q = true →
  is_ascii q' = true →
  record_matches_with str_lower (str_lower q) (JObj rec) = Ok true →
  occurs_up_to_case q' q →
  record_matches_with str_lower (str_lower q') (JObj rec) = Ok true.
Proof.
  intros Hlow Ht Hd Hq Hq' Hmatch Hpart.
  apply occurs_up_to_case_lower in Hpart.
  rewrite record_matches_with_text in Hmatch |- * by done.
  rewrite (Hlow _ Hq) in Hmatch. rewrite (Hlow _ Hq').
  injection Hmatch as Hmatch. f_equal.
  apply orb_true_iff in Hmatch as [H|H]; apply orb_true_iff; [left|right];
    by apply (contains_trans _ (lower q)).
Qed.

End Bridge.

(** * The end-to-end scenario, run *)

(** Ingesting the workspace yields the two expected records. *)
Example scenario_walk :
  (fetch_clickup_tasks (serve demo_pages) demo_repr demo_str_exn
     (mkState tt None [] [])).1
  = Ok demo_records.
Proof. vm_compute. reflexivity. Qed.

(** [ingest] then writes the document that holds them. *)
Example scenario_ingest :
  st_disk (ingest (serve demo_pages) sound_write demo_dumps demo_repr demo_str_exn
             (mkState tt None [] [])).2
  = Some demo_document.
Proof. vm_compute. reflexivity. Qed.

(** Querying "bug" matches a title "Critical Bug Report" and a
    description "...has a BUG in...". *)
Example scenario_bug :
  record_matches (lower "bug")
    (JObj {[ "title" := JStr "Critical Bug Report" ]}) = Ok true ∧
  record_matches (lower "bug")
    (JObj (list_to_map [ ("title", JNull);
                         ("description", JStr "...has a BUG in...") ]))
  = Ok true ∧
  record_matches (lower "bug") (JObj {[ "title" := JStr "Fix login" ]})
  = Ok false.
Proof. repeat split; vm_compute; reflexivity. Qed.

(** A query that matches goes to the model. *)
Example scenario_query :
  (query_knowledge demo_chat sound_read demo_loads demo_repr demo_str_exn "LOGIN"
     (mkState tt (Some demo_document) [] [])).1
  = Ok (ModelResponse "Two tasks are open.").
Proof. vm_compute. reflexivity. Qed.

(** A stored record without a title raises in the renderer once it
    matches. *)
Example record_without_title :
  (query_knowledge demo_chat sound_read demo_loads demo_repr demo_str_exn ""
     (mkState tt (Some (demo_dumps (JObj {[ "tasks" := JArr [JObj ∅] ]}))) [] [])).1
  = Raise (KeyError "title").
Proof. vm_compute. reflexivity. Qed.

(** A task whose status is a plain string makes the whole ingestion
    fail, and the document stays as it was. *)
Example scenario_string_status :
  (ingest (serve odd_pages) sound_write demo_dumps demo_repr demo_str_exn
     (mkState tt (Some demo_document) [] [])).1
  = Raise (HTTPException 500 "'str' object has no attribute 'get'") ∧
  st_disk (ingest (serve odd_pages) sound_write demo_dumps demo_repr
             demo_str_exn (mkState tt (Some demo_document) [] [])).2
  = Some demo_document.
Proof. split; vm_compute; reflexivity. Qed.

(** A stored title that is a number raises when it is lowered. *)
Example record_with_number_title :
  record_matches "" (JObj {[ "title" := JInt 5 ]})
  = Raise (AttributeError "int" "lower").
Proof. reflexivity. Qed.

(** * The theorems at concrete inputs *)

Lemma failed_fetch_aborts_ingestion_witness :
  fetch_failed (mkState tt (Some demo_document) [] [])
    (fetch_clickup_tasks (serve broken_pages) demo_repr demo_str_exn
       (mkState tt (Some demo_document) [] [])).2 ∧
  is_raise (fetch_clickup_tasks (serve broken_pages) demo_repr demo_str_exn
              (mkState tt (Some demo_document) [] [])).1 = true ∧
  (∃ detail,
     (ingest (serve broken_pages) sound_write demo_dumps demo_repr demo_str_exn
        (mkState tt (Some demo_document) [] [])).1
     = Raise (HTTPException 500 detail)) ∧
  st_disk (ingest (serve broken_pages) sound_write demo_dumps demo_repr demo_str_exn
             (mkState tt (Some demo_document) [] [])).2
  = Some demo_document.
Proof.
  assert (fetch_failed (mkState tt (Some demo_document) [] [])
            (fetch_clickup_tasks (serve broken_pages) demo_repr demo_str_exn
               (mkState tt (Some demo_document) [] [])).2) as Hfail.
  { unfold fetch_failed.
    do 4 apply Exists_cons_tl. apply Exists_cons_hd.
    exists (api +:+ "list/l1/task"), "404 Client Error: Not Found".
    reflexivity. }
  split; [exact Hfail|].
  exact (failed_fetch_aborts_ingestion (serve broken_pages) sound_write
           demo_dumps demo_repr demo_str_exn _ Hfail).
Defined.

Lemma store_round_trip_witness :
  reads_back demo_dumps demo_loads (JObj {[ "tasks" := JArr demo_records ]}) ∧
  ((save_to_json sound_write demo_dumps demo_str_exn demo_records;;
    load_from_json sound_read demo_loads demo_str_exn) (mkState tt None [] [])).1
  = Ok (JArr demo_records).
Proof.
  assert (reads_back demo_dumps demo_loads
            (JObj {[ "tasks" := JArr demo_records ]})) as Hdoc.
  { vm_compute. reflexivity. }
  split; [exact Hdoc|].
  exact (store_round_trip sound_write sound_read demo_dumps demo_loads
           demo_str_exn demo_records (mkState tt None [] []) Hdoc
           eq_refl eq_refl).
Defined.

Lemma missing_status_is_unknown_witness :
  status_missing task_a = true ∧
  norm_status (JObj task_a) = Ok (JStr "Unknown") ∧
  match normalize_task (JObj task_a) (JStr "Sprint 1") (JStr "Backend")
          (JStr "Eng") with
  | Ok rec => field "status" rec = Some (JStr "Unknown")
  | Raise e => task_a !! "id" = None ∧ e = KeyError "id"
  end.
Proof.
  split; [reflexivity|].
  apply (missing_status_is_unknown task_a). reflexivity.
Defined.

Lemma unusable_priority_is_not_set_witness :
  priority_unusable task_b = true ∧
  norm_priority (JObj task_b) = Ok (JStr "Not set") ∧
  (∀ rec, normalize_task (JObj task_b) (JStr "Sprint 1") (JStr "Backend")
            (JStr "Eng") = Ok rec →
          field "priority" rec = Some (JStr "Not set")) ∧
  (is_Some (task_b !! "id") → status_well_shaped task_b = true →
   ∃ rec, normalize_task (JObj task_b) (JStr "Sprint 1") (JStr "Backend")
            (JStr "Eng") = Ok rec).
Proof.
  split; [reflexivity|].
  apply (unusable_priority_is_not_set task_b). reflexivity.
Defined.

Lemma load_falls_back_to_empty_witness :
  demo_loads "{ not json" = None ∧
  (load_from_json sound_read demo_loads demo_str_exn
     (mkState tt (Some "{ not json") [] [])).1
  = Ok (JArr []).
Proof.
  split; [reflexivity|].
  apply (load_falls_back_to_empty sound_read demo_loads demo_str_exn).
  right. exists "{ not json". split; reflexivity.
Defined.


Lemma walk_records_are_complete_witness :
  Forall (λ rec, complete_record rec ∧
                 has_keys record_keys rec = true ∧
                 ∃ text, task_text demo_repr rec = Ok text)
         demo_records.
Proof.
  apply (walk_records_are_complete (serve demo_pages) demo_repr demo_str_exn
           (mkState tt None [] [])
           (fetch_clickup_tasks (serve demo_pages) demo_repr demo_str_exn
              (mkState tt None [] [])).2).
  vm_compute. reflexivity.
Defined.

Lemma empty_query_reaches_model_witness :
  Forall (λ rec, record_matches (lower "") rec = Ok true) demo_records ∧
  ∃ messages,
    st_chats (query_knowledge demo_chat sound_read demo_loads demo_repr demo_str_exn ""
                (mkState tt (Some demo_document) [] [])).2
    = [("deepseek-r1:14b", messages)] ∧
    (query_knowledge demo_chat sound_read demo_loads demo_repr demo_str_exn ""
       (mkState tt (Some demo_document) [] [])).1
    = ((demo_chat "deepseek-r1:14b" messages tt).1
       ≫= λ response, Ok (ModelResponse response)) ∧
    (query_knowledge demo_chat sound_read demo_loads demo_repr demo_str_exn ""
       (mkState tt (Some demo_document) [] [])).1
    ≠ Ok no_match.
Proof.
  apply (empty_query_reaches_model demo_chat sound_read demo_loads demo_repr demo_str_exn
           (mkState tt (Some demo_document) [] []) demo_records).
  - vm_compute. reflexivity.
  - discriminate.
  - vm_compute. reflexivity.
Defined.

(** * More theorems at concrete inputs *)

Lemma normalize_task_reads_nine_keys_witness :
  normalize_task (JObj task_a) (JStr "Sprint 1") (JStr "Backend") (JStr "Eng")
  = normalize_task (JObj (<[ "custom_fields" := JArr [] ]> task_a))
      (JStr "Sprint 1") (JStr "Backend") (JStr "Eng").
Proof.
  apply (normalize_task_reads_nine_keys task_a
           (<[ "custom_fields" := JArr [] ]> task_a)).
  intros k Hk. unfold read_keys in Hk.
  repeat (apply elem_of_cons in Hk as [->|Hk]; [reflexivity|]).
  by apply elem_of_nil in Hk.
Defined.

Lemma absent_field_equals_default_witness :
  normalize_task (JObj (<[ "due_date" := JStr "None" ]> task_a))
    (JStr "Sprint 1") (JStr "Backend") (JStr "Eng")
  = normalize_task (JObj task_a) (JStr "Sprint 1") (JStr "Backend") (JStr "Eng").
Proof.
  apply (absent_field_equals_default task_a "due_date" (JStr "None")).
  - unfold plain_defaults. do 2 apply list_elem_of_further.
    apply list_elem_of_here.
  - reflexivity.
Defined.

Lemma walk_of_empty_workspace_witness :
  fetch_clickup_tasks (serve empty_pages) demo_repr demo_str_exn
    (mkState tt None [] [])
  = (Ok [],
     mkState tt None
       [(INFO, "Requesting: https://api.clickup.com/api/v2/team/3342101/space")]
       []).
Proof.
  apply (walk_of_empty_workspace (serve empty_pages) demo_repr demo_str_exn
           (mkState tt None [] []) (JObj ∅) tt); reflexivity.
Defined.

Lemma ingest_with_failed_write_witness :
  ∃ msg,
    (ingest (serve demo_pages) refusing_write demo_dumps demo_repr demo_str_exn
       (mkState tt (Some "old") [] [])).1
    = Raise (HTTPException 500 (demo_str_exn (OSError msg))) ∧
    st_log (ingest (serve demo_pages) refusing_write demo_dumps demo_repr
              demo_str_exn (mkState tt (Some "old") [] [])).2
    = (st_log (fetch_clickup_tasks (serve demo_pages) demo_repr demo_str_exn
                 (mkState tt (Some "old") [] [])).2 ++
       [(ERROR, "Error saving to JSON: " +:+ demo_str_exn (OSError msg))])%list ∧
    st_disk (ingest (serve demo_pages) refusing_write demo_dumps demo_repr
               demo_str_exn (mkState tt (Some "old") [] [])).2
    = Some "old".
Proof.
  apply (ingest_with_failed_write (serve demo_pages) refusing_write demo_dumps
           demo_repr demo_str_exn (mkState tt (Some "old") [] []) demo_records).
  - vm_compute. reflexivity.
  - discriminate.
Defined.

Lemma second_store_replaces_first_witness :
  ((save_to_json sound_write demo_dumps demo_str_exn demo_records;;
    save_to_json sound_write demo_dumps demo_str_exn [JObj task_a];;
    load_from_json sound_read demo_loads demo_str_exn)
     (mkState tt None [] [])).1
  = Ok (JArr [JObj task_a]).
Proof.
  apply (second_store_replaces_first sound_write sound_read demo_dumps
           demo_loads demo_str_exn demo_records [JObj task_a]
           (mkState tt None [] [])); vm_compute; reflexivity.
Defined.

Lemma load_of_object_document_witness :
  load_from_json sound_read demo_loads demo_str_exn
    (mkState tt (Some null_tasks_document) [] [])
  = (Ok JNull, mkState tt (Some null_tasks_document) [] []).
Proof.
  rewrite (load_of_object_document sound_read demo_loads demo_str_exn
             (mkState tt (Some null_tasks_document) [] [])
             null_tasks_document {[ "tasks" := JNull ]});
    vm_compute; reflexivity.
Defined.

Lemma load_of_non_object_document_witness :
  load_from_json sound_read demo_loads demo_str_exn
    (mkState tt (Some "[1, 2]") [] [])
  = (Ok (JArr []),
     mkState tt (Some "[1, 2]")
       [(ERROR, "Error loading from JSON: 'list' object has no attribute 'get'")]
       []).
Proof.
  apply (load_of_non_object_document sound_read demo_loads demo_str_exn
           (mkState tt (Some "[1, 2]") [] []) "[1, 2]"
           (JArr [JInt 1; JInt 2])); reflexivity.
Defined.

Lemma load_after_ingest_witness :
  (ingest (serve demo_pages) sound_write demo_dumps demo_repr demo_str_exn
     (mkState tt None [] [])).1
  = Ok ingested ∧
  (load_from_json sound_read demo_loads demo_str_exn
     (ingest (serve demo_pages) sound_write demo_dumps demo_repr demo_str_exn
        (mkState tt None [] [])).2).1
  = Ok (JArr demo_records).
Proof.
  apply (load_after_ingest (serve demo_pages) sound_write sound_read demo_dumps
           demo_loads demo_repr demo_str_exn (mkState tt None [] [])
           demo_records); vm_compute; reflexivity.
Defined.

Lemma query_on_absent_store_witness :
  query_knowledge demo_chat sound_read demo_loads demo_repr demo_str_exn "login"
    (mkState tt None [] [])
  = (Ok no_match, mkState tt None [] []).
Proof.
  apply (query_on_absent_store demo_chat sound_read demo_loads demo_repr
           demo_str_exn "login" (mkState tt None [] [])).
  reflexivity.
Defined.



Lemma falsy_fields_render_alike_witness :
  task_text demo_repr (JObj null_record) = task_text demo_repr (JObj blank_record).
Proof.
  apply (falsy_fields_render_alike demo_repr null_record blank_record).
  intros k Hk. unfold rendered_keys in Hk.
  repeat (apply elem_of_cons in Hk as [->|Hk];
          [exists JNull, (JStr "");
           split; [reflexivity|]; split; [reflexivity|];
           right; split; reflexivity|]).
  by apply elem_of_nil in Hk.
Defined.

Lemma serve_answers (pages : gmap string json) (url : string) (w : unit) :
  serve pages url w = ((serve pages url tt).1, w).
Proof. destruct w. unfold serve. by destruct (pages !! url). Qed.

Lemma walk_is_nested_traversal_witness :
  (fetch_clickup_tasks (serve demo_pages) demo_repr demo_str_exn
     (mkState tt None [] [])).1
  = records_of_workspace demo_repr (λ url, (serve demo_pages url tt).1).
Proof.
  apply (walk_is_nested_traversal (serve demo_pages) demo_repr demo_str_exn
           (λ url, (serve demo_pages url tt).1) (serve_answers demo_pages)).
Defined.

Lemma ingest_twice_stores_the_same_witness :
  (ingest (serve demo_pages) sound_write demo_dumps demo_repr demo_str_exn
     (ingest (serve demo_pages) sound_write demo_dumps demo_repr demo_str_exn
        (mkState tt None [] [])).2).1
  = (ingest (serve demo_pages) sound_write demo_dumps demo_repr demo_str_exn
       (mkState tt None [] [])).1 ∧
  st_disk
    (ingest (serve demo_pages) sound_write demo_dumps demo_repr demo_str_exn
       (ingest (serve demo_pages) sound_write demo_dumps demo_repr demo_str_exn
          (mkState tt None [] [])).2).2
  = st_disk
      (ingest (serve demo_pages) sound_write demo_dumps demo_repr demo_str_exn
         (mkState tt None [] [])).2.
Proof.
  apply (ingest_twice_stores_the_same (serve demo_pages) sound_write demo_dumps
           demo_repr demo_str_exn (λ url, (serve demo_pages url tt).1)
           (serve_answers demo_pages) (mkState tt None [] [])).
  reflexivity.
Defined.

(** * Letter case at concrete inputs *)

Lemma lower_sample_ascii (s : string) :
  is_ascii s = true → lower_sample s = lower s.
Proof.
  intros Hs. unfold lower_sample.
  destruct (String.eqb_spec s "ΟΣ") as [->|_]; [by vm_compute in Hs|].
  destruct (String.eqb_spec s "ΟΣΑ") as [->|_]; [by vm_compute in Hs|].
  reflexivity.
Qed.

Lemma ascii_match_is_case_insensitive_substring_witness :
  ∃ hit : bool,
    record_matches_with lower_sample (lower_sample "bug")
      (JObj {[ "title" := JStr "Critical Bug Report" ]}) = Ok hit ∧
    (hit = true ↔
     occurs_up_to_case "bug"
       (text_of (({[ "title" := JStr "Critical Bug Report" ]}
                  : gmap string json) !! "title")) ∨
     occurs_up_to_case "bug"
       (text_of (({[ "title" := JStr "Critical Bug Report" ]}
                  : gmap string json) !! "description"))).
Proof.
  apply (ascii_match_is_case_insensitive_substring lower_sample "bug"
           {[ "title" := JStr "Critical Bug Report" ]} lower_sample_ascii);
    reflexivity.
Defined.

(** C7 does not hold for every query string: beyond ASCII the match
    test is not substring search up to case.  The query 'ΟΣ' stands in
    the title 'ΟΣΑ' as it is, so it occurs there up to case; but line
    121 lowers the query to 'ος', line 129 lowers the title to 'οσα',
    and the record does not match. *)
Lemma greek_query_is_not_matched :
  ¬ ∃ hit : bool,
      record_matches_with lower_sample (lower_sample "ΟΣ")
        (JObj {[ "title" := JStr "ΟΣΑ" ]}) = Ok hit ∧
      (hit = true ↔
       occurs_up_to_case "ΟΣ"
         (text_of (({[ "title" := JStr "ΟΣΑ" ]} : gmap string json) !! "title")) ∨
       occurs_up_to_case "ΟΣ"
         (text_of (({[ "title" := JStr "ΟΣΑ" ]} : gmap string json)
                   !! "description"))).
Proof.
  intros (hit & Hrun & Hiff).
  assert (hit = false) as -> by (vm_compute in Hrun; congruence).
  assert (false = true) as Habsurd; [|discriminate Habsurd].
  apply Hiff. left. exists "", "ΟΣ", "Α". split; [reflexivity|].
  repeat (constructor; [by left|]). constructor.
Qed.

Lemma ascii_query_case_does_not_matter_witness :
  query_knowledge demo_chat sound_read demo_loads demo_repr demo_str_exn "BUG"
    (mkState tt (Some demo_document) [] [])
  = query_knowledge demo_chat sound_read demo_loads demo_repr demo_str_exn "bug"
      (mkState tt (Some demo_document) [] []).
Proof.
  apply (ascii_query_case_does_not_matter demo_chat sound_read demo_loads
           demo_repr demo_str_exn "BUG" "bug"); try reflexivity.
  repeat (constructor; [right; left; unfold case_pair; vm_compute; lia|]). constructor.
Defined.

Lemma part_of_ascii_query_still_matches_witness :
  record_matches_with lower_sample (lower_sample "bug")
    (JObj {[ "title" := JStr "Critical Bug Report" ]}) = Ok true.
Proof.
  apply (part_of_ascii_query_still_matches lower_sample "Bug Report" "bug"
           {[ "title" := JStr "Critical Bug Report" ]} lower_sample_ascii);
    try reflexivity.
  exists "", "Bug", " Report". split; [reflexivity|].
  constructor; [right; left; unfold case_pair; vm_compute; lia|].
  repeat (constructor; [by left|]). constructor.
Defined.
